(** * toodledo-python: the codecs, the record schemas, the batch transport
      and the service client of [toodledo/toodledo.py], embedded in Rocq.

    The development follows the layout of the Python module: values and
    exceptions, the three field codecs, the error table, the two record
    schemas, the five transport functions and the [Toodledo] client class. *)

From Stdlib Require Import ZArith Lia Ascii String List.
From stdpp Require Import base option list strings gmap fin_maps sorting.

Set Warnings "-register-all".

Local Open Scope string_scope.
Local Open Scope Z_scope.

(** ** Python values and exceptions *)

Module Py.

(** Decoded JSON, as [response.json()] returns it.  Numbers are kept at whole
    values: every number the module produces or compares is a count, an
    identifier, an error code or a whole number of epoch seconds. *)
Inductive json : Type :=
| JNull
| JBool (b : bool)
| JNum (z : Z)
| JStr (s : string)
| JList (l : list json)
| JDict (kv : list (string * json)).

(** The exceptions that the module and the library calls it makes can raise.
    [ValidationError] is marshmallow's: a schema raises it only in strict
    mode, and the module builds its schemas without it. *)
Inductive exn : Type :=
| NameError (name : string)
| TypeError (what : string)
| ValueError (what : string)
| KeyError (key : string)
| AttributeError (attribute : string)
| AssertionError
| HTTPError (status : Z)
| TokenMissingError
| TransportFailure (what : string)
| ValidationError (field : string)
| ToodledoError (errorMessage : string) (errorCode : json).

(** The result of running a piece of Python: a value, a raised exception, or
    a loop that was still running when the step budget ended. *)
Inductive outcome (A : Type) : Type :=
| Ret (a : A)
| Exc (e : exn)
| Diverge.
Arguments Ret {A} a.
Arguments Exc {A} e.
Arguments Diverge {A}.

Definition obind {A B} (o : outcome A) (k : A -> outcome B) : outcome B :=
  match o with
  | Ret a => k a
  | Exc e => Exc e
  | Diverge => Diverge
  end.

(** [[f(x) for x in xs]]: left to right, the first exception ends it. *)
Fixpoint omap {A B} (f : A -> outcome B) (xs : list A) : outcome (list B) :=
  match xs with
  | [] => Ret []
  | x :: rest =>
      obind (f x) (fun y => obind (omap f rest) (fun ys => Ret (y :: ys)))
  end.

(** A computation over a mutable world [W]; the world survives an exception. *)
Definition M (W A : Type) : Type := W -> outcome A * W.

Definition ret {W A} (a : A) : M W A := fun w => (Ret a, w).
Definition raise {W A} (e : exn) : M W A := fun w => (Exc e, w).
Definition bind {W A B} (m : M W A) (k : A -> M W B) : M W B :=
  fun w => match m w with
           | (Ret a, w') => k a w'
           | (Exc e, w') => (Exc e, w')
           | (Diverge, w') => (Diverge, w')
           end.
Definition lift {W A} (o : outcome A) : M W A := fun w => (o, w).

(** [try: m  except: h] with the handler seeing the exception. *)
Definition catch {W A} (m : M W A) (h : exn -> M W A) : M W A :=
  fun w => match m w with
           | (Exc e, w') => h e w'
           | other => other
           end.

Declare Scope outcome_scope.
Delimit Scope outcome_scope with out.
Declare Scope world_scope.
Delimit Scope world_scope with world.

Notation "x <- e ;; k" := (obind e (fun x => k))
  (at level 100, e at next level, right associativity) : outcome_scope.
Notation "x <- e ;; k" := (bind e (fun x => k))
  (at level 100, e at next level, right associativity) : world_scope.
Notation "e ;; k" := (bind e (fun _ => k))
  (at level 100, right associativity) : world_scope.

(** ** Strings *)

Definition code (c : ascii) : N := N_of_ascii c.

(** [str.isspace] on the code points below 256. *)
Definition isspace (c : ascii) : bool :=
  let n := code c in
  ((9 <=? n) && (n <=? 13) || (28 <=? n) && (n <=? 32)
   || (n =? 133) || (n =? 160))%N.

Fixpoint lstrip (s : string) : string :=
  match s with
  | EmptyString => EmptyString
  | String c rest => if isspace c then lstrip rest else s
  end.

Fixpoint rev_onto (s acc : string) : string :=
  match s with
  | EmptyString => acc
  | String c rest => rev_onto rest (String c acc)
  end.

Definition srev (s : string) : string := rev_onto s EmptyString.

Definition rstrip (s : string) : string := srev (lstrip (srev s)).

(** [s.strip()] *)
Definition strip (s : string) : string := rstrip (lstrip s).

(** [s.split(sep)] for a one-character separator: always at least one piece. *)
Fixpoint split (sep : ascii) (s : string) : list string :=
  match s with
  | EmptyString => [EmptyString]
  | String c rest =>
      if Ascii.eqb c sep then EmptyString :: split sep rest
      else match split sep rest with
           | [] => [String c EmptyString]
           | piece :: pieces => String c piece :: pieces
           end
  end.

(** [sep.join(xs)] *)
Fixpoint join (sep : string) (xs : list string) : string :=
  match xs with
  | [] => EmptyString
  | [x] => x
  | x :: rest => (x ++ sep ++ join sep rest)%string
  end.

(** Python compares strings code point by code point; [String.leb] is that
    order.  [sorted] is stable, here by insertion from the right. *)
Fixpoint insert_sorted (x : string) (xs : list string) : list string :=
  match xs with
  | [] => [x]
  | y :: rest => if String.leb x y then x :: xs else y :: insert_sorted x rest
  end.

Fixpoint sorted (xs : list string) : list string :=
  match xs with
  | [] => []
  | x :: rest => insert_sorted x (sorted rest)
  end.

Fixpoint startswith (p s : string) : bool :=
  match p, s with
  | EmptyString, _ => true
  | String a p', String b s' => Ascii.eqb a b && startswith p' s'
  | String _ _, EmptyString => false
  end.

(** [p in s] on two strings: substring test. *)
Fixpoint contains (p s : string) : bool :=
  startswith p s ||
  match s with
  | EmptyString => false
  | String _ s' => contains p s'
  end.

Definition is_str (s : string) (j : json) : bool :=
  match j with
  | JStr t => String.eqb s t
  | _ => false
  end.

Fixpoint assoc (k : string) (kv : list (string * json)) : option json :=
  match kv with
  | [] => None
  | (k', v) :: rest => if String.eqb k k' then Some v else assoc k rest
  end.

(** [key in obj] for a string key and a decoded JSON object. *)
Definition py_in (key : string) (obj : json) : outcome bool :=
  match obj with
  | JDict kv => Ret (bool_decide (is_Some (assoc key kv)))
  | JList l => Ret (existsb (is_str key) l)
  | JStr s => Ret (contains key s)
  | JNull => Exc (TypeError "argument of type 'NoneType' is not iterable")
  | JBool _ => Exc (TypeError "argument of type 'bool' is not iterable")
  | JNum _ => Exc (TypeError "argument of type 'int' is not iterable")
  end.

(** [obj[key]] for a string key. *)
Definition py_getitem (obj : json) (key : string) : outcome json :=
  match obj with
  | JDict kv => match assoc key kv with
                | Some v => Ret v
                | None => Exc (KeyError key)
                end
  | JList _ => Exc (TypeError "list indices must be integers or slices, not str")
  | JStr _ => Exc (TypeError "string indices must be integers")
  | _ => Exc (TypeError "object is not subscriptable")
  end.

(** [xs[1:]] *)
Definition tail_from_1 {A} (xs : list A) : list A := drop 1 xs.

(** [xs[start: start + limit]] for non-negative bounds. *)
Definition slice {A} (xs : list A) (start limit : nat) : list A :=
  take limit (drop start xs).

End Py.

Import Py.

(** ** Calendar arithmetic of Python's [datetime] module *)

Module Calendar.

Record date : Type := mkdate { year : Z; month : Z; day : Z }.

Record datetime : Type :=
  mkdatetime { dt_date : date; hour : Z; minute : Z; second : Z }.

Definition is_leap (y : Z) : bool :=
  (y mod 4 =? 0) && (negb (y mod 100 =? 0) || (y mod 400 =? 0)).

Definition days_before_year (y : Z) : Z :=
  let p := y - 1 in p * 365 + p / 4 - p / 100 + p / 400.

Definition DAYS_IN_MONTH (m : Z) : Z :=
  match m with
  | 1 => 31 | 2 => 28 | 3 => 31 | 4 => 30 | 5 => 31 | 6 => 30
  | 7 => 31 | 8 => 31 | 9 => 30 | 10 => 31 | 11 => 30 | 12 => 31
  | _ => -1
  end.

Definition DAYS_BEFORE_MONTH (m : Z) : Z :=
  match m with
  | 1 => 0 | 2 => 31 | 3 => 59 | 4 => 90 | 5 => 120 | 6 => 151
  | 7 => 181 | 8 => 212 | 9 => 243 | 10 => 273 | 11 => 304 | 12 => 334
  | _ => -1
  end.

Definition days_in_month (y m : Z) : Z :=
  if (m =? 2) && is_leap y then 29 else DAYS_IN_MONTH m.

Definition days_before_month (y m : Z) : Z :=
  DAYS_BEFORE_MONTH m + (if (2 <? m) && is_leap y then 1 else 0).

(** [date.toordinal()]: 1 is 0001-01-01. *)
Definition ymd2ord (d : date) : Z :=
  days_before_year (year d) + days_before_month (year d) (month d) + day d.

Definition DI400Y : Z := 146097.
Definition DI100Y : Z := 36524.
Definition DI4Y : Z := 1461.

(** [date.fromordinal(n)] *)
Definition ord2ymd (n : Z) : date :=
  let n := n - 1 in
  let n400 := n / DI400Y in
  let n := n mod DI400Y in
  let y := n400 * 400 + 1 in
  let n100 := n / DI100Y in
  let n := n mod DI100Y in
  let n4 := n / DI4Y in
  let n := n mod DI4Y in
  let n1 := n / 365 in
  let n := n mod 365 in
  let y := y + n100 * 100 + n4 * 4 + n1 in
  if (n1 =? 4) || (n100 =? 4) then mkdate (y - 1) 12 31
  else
    let leapyear := (n1 =? 3) && (negb (n4 =? 24) || (n100 =? 3)) in
    let m := Z.shiftr (n + 50) 5 in
    let preceding :=
      DAYS_BEFORE_MONTH m + (if (2 <? m) && leapyear then 1 else 0) in
    if n <? preceding then
      let m' := m - 1 in
      let preceding' :=
        preceding
        - (DAYS_IN_MONTH m' + (if (m' =? 2) && leapyear then 1 else 0)) in
      mkdate y m' (n - preceding' + 1)
    else mkdate y m (n - preceding + 1).

(** The dates a Python [date] object can hold. *)
Definition valid_date (d : date) : bool :=
  (1 <=? year d) && (year d <=? 9999)
  && (1 <=? month d) && (month d <=? 12)
  && (1 <=? day d) && (day d <=? days_in_month (year d) (month d)).

(** [date(1970, 1, 1).toordinal()] *)
Definition EPOCH_ORDINAL : Z := 719163.
Definition MAX_ORDINAL : Z := 3652059.

(** The process runs in a time zone [utcoffset] seconds east of UTC, the same
    all year round.  [dt.timestamp()] of a naive datetime reads it as local
    time; the float it returns is a whole number here.  This is the value of
    the call when it returns; [timestamp_returns] below says when it does. *)
Definition timestamp (utcoffset : Z) (dt : datetime) : Z :=
  (ymd2ord (dt_date dt) - EPOCH_ORDINAL) * 86400
  + hour dt * 3600 + minute dt * 60 + second dt - utcoffset.

(** When [dt.timestamp()] returns.  To tell a repeated hour from a skipped
    one, Python takes the local time of two more instants: the one that has
    the figures of [dt] in UTC, and the one a day before [dt].  It raises
    [ValueError] when one of them lies outside the years 1 to 9999: on the
    first day of year 1 in every zone, and near either end of the range by
    as much as the zone is away from UTC.  [t] counts the seconds of [dt]
    from 0001-01-01 0:00:00. *)
Definition timestamp_returns (utcoffset : Z) (dt : datetime) : bool :=
  let t := (ymd2ord (dt_date dt) - 1) * 86400
           + hour dt * 3600 + minute dt * 60 + second dt in
  (86400 <=? t) && (0 <=? t + utcoffset)
  && (t + utcoffset <? MAX_ORDINAL * 86400).

(** [datetime(year=y, month=m, day=d)]: the time of day defaults to 0:00:00. *)
Definition datetime_ymd (y m d : Z) : datetime :=
  mkdatetime (mkdate y m d) 0 0 0.

Definition local_ordinal (utcoffset t : Z) : Z :=
  (t + utcoffset) / 86400 + EPOCH_ORDINAL.

(** [date.fromtimestamp(t)]: the local calendar day of instant [t]. *)
Definition date_fromtimestamp (utcoffset t : Z) : outcome date :=
  let n := local_ordinal utcoffset t in
  if (1 <=? n) && (n <=? MAX_ORDINAL) then Ret (ord2ymd n)
  else Exc (ValueError "year is out of range").

(** [datetime.fromtimestamp(t)]: the local date and time of instant [t].
    Python also takes the local time one day before [t], to see whether the
    hour is a repeated one, so that no instant of the first day of year 1 is
    accepted. *)
Definition datetime_fromtimestamp (utcoffset t : Z) : outcome datetime :=
  let n := local_ordinal utcoffset t in
  let s := (t + utcoffset) mod 86400 in
  if (2 <=? n) && (n <=? MAX_ORDINAL)
  then Ret (mkdatetime (ord2ymd n) (s / 3600) (s mod 3600 / 60) (s mod 60))
  else Exc (ValueError "year is out of range").

End Calendar.

Import Calendar.

(** ** Number conversions *)

Definition digit_of (c : ascii) : option Z :=
  let n := Z.of_N (code c) in
  if (48 <=? n) && (n <=? 57) then Some (n - 48) else None.

Fixpoint parse_digits (s : string) (acc : Z) : option Z :=
  match s with
  | EmptyString => Some acc
  | String c rest =>
      match digit_of c with
      | Some d => parse_digits rest (acc * 10 + d)
      | None => None
      end
  end.

(** Numeric text is read as a signed decimal numeral, blanks around it
    allowed.  Python reads more texts as numbers (with a fraction, an
    exponent, underscores between digits, [inf], [nan]); numbers are whole
    here, and such a text counts as not a number. *)
Definition parse_int (s : string) : option Z :=
  match strip s with
  | EmptyString => None
  | String "-" (String c r) => Z.opp <$> parse_digits (String c r) 0
  | String "+" (String c r) => parse_digits (String c r) 0
  | t => parse_digits t 0
  end.

(** [float(value)] *)
Definition py_float (value : json) : outcome Z :=
  match value with
  | JNum z => Ret z
  | JBool b => Ret (if b then 1 else 0)
  | JStr s => match parse_int s with
              | Some z => Ret z
              | None => Exc (ValueError "could not convert string to float")
              end
  | _ => Exc (TypeError "float() argument must be a string or a number")
  end.

(** [value == 0] *)
Definition eq_zero (value : json) : bool :=
  match value with
  | JNum z => z =? 0
  | JBool b => negb b
  | _ => false
  end.

(** ** Field codecs *)

Module ToodledoDate.

Definition _serialize (utcoffset : Z) (value : option date) : Z :=
  match value with
  | None => 0
  | Some v => timestamp utcoffset (datetime_ymd (year v) (month v) (day v))
  end.

Definition _deserialize (utcoffset : Z) (value : json) : outcome (option date) :=
  if eq_zero value then Ret None
  else (t <- py_float value ;;
        d <- date_fromtimestamp utcoffset t ;;
        Ret (Some d))%out.

End ToodledoDate.

Module ToodledoDatetime.

Definition _serialize (utcoffset : Z) (value : option datetime) : Z :=
  match value with
  | None => 0
  | Some v => timestamp utcoffset v
  end.

Definition _deserialize (utcoffset : Z) (value : json)
  : outcome (option datetime) :=
  if eq_zero value then Ret None
  else (t <- py_float value ;;
        d <- datetime_fromtimestamp utcoffset t ;;
        Ret (Some d))%out.

End ToodledoDatetime.

Module ToodledoTags.

(** [assert isinstance(value, list)]: [None] is what a tag attribute set to
    [None] passes in. *)
Definition _serialize (value : option (list string)) : outcome string :=
  match value with
  | None => Exc AssertionError
  | Some v => Ret (join ", " (sorted v))
  end.

Definition _deserialize (value : json) : outcome (list string) :=
  match value with
  | JStr v => if String.eqb v "" then Ret []
              else Ret (map strip (split "," v))
  | _ => Exc AssertionError
  end.

End ToodledoTags.

(** ** The error table *)

Definition errorCodeToMessage : gmap Z string :=
  list_to_map
    [ (1, "No access token was given");
      (2, "The access token was invalid");
      (3, "Too many API requests");
      (4, "The API is offline for maintenance");
      (601, "Your task must have a title.");
      (602, "Only 50 tasks can be added/edited/deleted at a time.");
      (603, "The maximum number of tasks allowed per account (20000) has been reached");
      (604, "Empty id");
      (605, "Invalid task");
      (606, "Nothing was added/edited. You'll get this error if you attempt to edit a task but don't pass any parameters to edit.");
      (607, "Invalid folder id");
      (608, "Invalid context id");
      (609, "Invalid goal id");
      (610, "Invalid location id");
      (611, "Malformed request");
      (612, "Invalid parent id");
      (613, "Incorrect field parameters");
      (614, "Parent was deleted");
      (615, "Invalid collaborator");
      (616, "Unable to reassign or share task") ].

(** [errorCodeToMessage.get(errorCode, "Unknown error")]: a key has to be
    hashable, and [True] and [False] hash and compare as 1 and 0. *)
Definition errorMessage_of (errorCode : json) : outcome string :=
  match errorCode with
  | JNum z => Ret (default "Unknown error" (errorCodeToMessage !! z))
  | JBool b =>
      Ret (default "Unknown error" (errorCodeToMessage !! (if b then 1 else 0)))
  | JStr _ | JNull => Ret "Unknown error"
  | JList _ => Exc (TypeError "unhashable type: 'list'")
  | JDict _ => Exc (TypeError "unhashable type: 'dict'")
  end.

(** [raise ToodledoError(errorCode)]: the exception that ends up raised. *)
Definition raise_ToodledoError (errorCode : json) : exn :=
  match errorMessage_of errorCode with
  | Ret errorMessage => ToodledoError errorMessage errorCode
  | Exc e => e
  | Diverge => ToodledoError "Unknown error" errorCode
  end.

(** ** Domain objects *)

(** An attribute of a Python object: not there, there and [None], or there
    with a value. *)
Inductive attr (A : Type) : Type :=
| Absent
| IsNone
| Val (a : A).
Arguments Absent {A}.
Arguments IsNone {A}.
Arguments Val {A} a.

(** [Task] keeps whatever keyword arguments it is built from.  The schema
    reads seven of them, each typed here as its field declares it. *)
Record Task : Type := mkTask {
  id_ : attr Z;
  title : attr string;
  tags : attr (list string);
  startDate : attr date;
  dueDate : attr date;
  modified : attr datetime;
  completedDate : attr date
}.

Record Account : Type := mkAccount {
  lastEditTask : option datetime;
  lastDeleteTask : option datetime
}.

(** ** Record schemas (marshmallow 2: [dump_to]/[load_from], results with
    [.data] and [.errors], nothing raised for a validation error) *)

Definition as_option {A} (a : attr A) : option (option A) :=
  match a with
  | Absent => None
  | IsNone => Some None
  | Val v => Some (Some v)
  end.

(** One field on the way out: an absent attribute is left out of the
    mapping, anything else goes through the field's [_serialize].  No
    validator runs on this side. *)
Definition dump_field {A} (key : string) (serialize : option A -> outcome json)
    (a : attr A) : outcome (list (string * json)) :=
  match as_option a with
  | None => Ret []
  | Some v => obind (serialize v) (fun j => Ret [(key, j)])
  end.

Definition Integer_serialize (v : option Z) : outcome json :=
  Ret (match v with None => JNull | Some z => JNum z end).

Definition String_serialize (v : option string) : outcome json :=
  Ret (match v with None => JNull | Some s => JStr s end).

(** What a field makes of a wire value on the way in. *)
Inductive field_result (A : Type) : Type :=
| FMissing
| FInvalid (message : string)
| FValue (a : A).
Arguments FMissing {A}.
Arguments FInvalid {A} message.
Arguments FValue {A} a.

(** [Length(max=255)] *)
Definition Length_max (max : nat) (value : string) : bool :=
  bool_decide (String.length value <= max)%nat.

Definition Integer_deserialize (value : json) : outcome (field_result Z) :=
  Ret (match value with
       | JNum z => FValue z
       | JBool b => FValue (if b then 1 else 0)
       | JStr s => match parse_int s with
                   | Some z => FValue z
                   | None => FInvalid "Not a valid integer."
                   end
       | _ => FInvalid "Not a valid integer."
       end).

Definition String_deserialize (max : nat) (value : json)
  : outcome (field_result string) :=
  Ret (match value with
       | JStr s => if Length_max max s then FValue s
                   else FInvalid "Longer than maximum length 255."
       | _ => FInvalid "Not a valid string."
       end).

Definition custom_deserialize {A} (deserialize : json -> outcome A)
    (value : json) : outcome (field_result A) :=
  obind (deserialize value) (fun v => Ret (FValue v)).

(** One field on the way in: the attribute name is tried first and the
    [load_from] name second; a missing key is skipped, [null] is refused. *)
Definition load_field {A} (attr_name load_from : string)
    (deserialize : json -> outcome (field_result A))
    (data : list (string * json)) : outcome (field_result A) :=
  let raw := match assoc attr_name data with
             | Some v => Some v
             | None => assoc load_from data
             end in
  match raw with
  | None => Ret FMissing
  | Some JNull => Ret (FInvalid "Field may not be null.")
  | Some v => deserialize v
  end.

Definition loaded_attr {A} (r : field_result (option A)) : attr A :=
  match r with
  | FValue (Some v) => Val v
  | FValue None => IsNone
  | _ => Absent
  end.

Definition loaded_plain {A} (r : field_result A) : attr A :=
  match r with
  | FValue v => Val v
  | _ => Absent
  end.

(** The name a field's value was read under, which is also the name its
    error is entered under: the attribute name when the record has that
    key, the [load_from] name otherwise. *)
Definition field_name (attr_name load_from : string)
    (data : list (string * json)) : string :=
  match assoc attr_name data with
  | Some _ => attr_name
  | None => load_from
  end.

Definition field_errors {A} (key : string) (r : field_result A)
  : list (string * string) :=
  match r with
  | FInvalid message => [(key, message)]
  | _ => []
  end.

(** [.data] of a load: the object the [post_load] hook makes, or, when any
    field was refused, the plain mapping of the fields that were accepted. *)
Inductive loaded (A D : Type) : Type :=
| Made (obj : A)
| Plain (fields : D).
Arguments Made {A D} obj.
Arguments Plain {A D} fields.

Record UnmarshalResult (A D : Type) : Type := mkResult {
  data : loaded A D;
  errors : list (string * string)
}.
Arguments mkResult {A D} data errors.
Arguments data {A D} _.
Arguments errors {A D} _.

Module TaskSchema.

Definition title_max : nat := 255.

(** [TaskSchema().dump(task).data] *)
Definition dump (utcoffset : Z) (task : Task) : outcome json :=
  (f1 <- dump_field "id" Integer_serialize (id_ task) ;;
   f2 <- dump_field "title" String_serialize (title task) ;;
   f3 <- dump_field "tag"
           (fun v => s <- ToodledoTags._serialize v ;; Ret (JStr s))
           (tags task) ;;
   f4 <- dump_field "startdate"
           (fun v => Ret (JNum (ToodledoDate._serialize utcoffset v)))
           (startDate task) ;;
   f5 <- dump_field "duedate"
           (fun v => Ret (JNum (ToodledoDate._serialize utcoffset v)))
           (dueDate task) ;;
   f6 <- dump_field "modified"
           (fun v => Ret (JNum (ToodledoDatetime._serialize utcoffset v)))
           (modified task) ;;
   f7 <- dump_field "completed"
           (fun v => Ret (JNum (ToodledoDate._serialize utcoffset v)))
           (completedDate task) ;;
   Ret (JDict (f1 ++ f2 ++ f3 ++ f4 ++ f5 ++ f6 ++ f7)%list))%out.

(** [TaskSchema().load(x)]: with no error [MakeTask] turns the loaded
    mapping into a [Task]. *)
Definition load (utcoffset : Z) (x : json)
  : outcome (UnmarshalResult Task Task) :=
  match x with
  | JDict kv =>
      (r1 <- load_field "id_" "id" Integer_deserialize kv ;;
       r2 <- load_field "title" "title" (String_deserialize title_max) kv ;;
       r3 <- load_field "tags" "tag"
               (custom_deserialize ToodledoTags._deserialize) kv ;;
       r4 <- load_field "startDate" "startdate"
               (custom_deserialize (ToodledoDate._deserialize utcoffset)) kv ;;
       r5 <- load_field "dueDate" "duedate"
               (custom_deserialize (ToodledoDate._deserialize utcoffset)) kv ;;
       r6 <- load_field "modified" "modified"
               (custom_deserialize (ToodledoDatetime._deserialize utcoffset))
               kv ;;
       r7 <- load_field "completedDate" "completed"
               (custom_deserialize (ToodledoDate._deserialize utcoffset)) kv ;;
       let fields :=
         mkTask (loaded_plain r1) (loaded_plain r2) (loaded_plain r3)
                (loaded_attr r4) (loaded_attr r5) (loaded_attr r6)
                (loaded_attr r7) in
       let errs :=
         (field_errors (field_name "id_" "id" kv) r1
          ++ field_errors (field_name "title" "title" kv) r2
          ++ field_errors (field_name "tags" "tag" kv) r3
          ++ field_errors (field_name "startDate" "startdate" kv) r4
          ++ field_errors (field_name "dueDate" "duedate" kv) r5
          ++ field_errors (field_name "modified" "modified" kv) r6
          ++ field_errors (field_name "completedDate" "completed" kv) r7)%list in
       Ret (match errs with
            | [] => mkResult (Made fields) []
            | _ => mkResult (Plain fields) errs
            end))%out
  | JNull => Exc (TypeError "argument after ** must be a mapping, not NoneType")
  | _ =>
      Ret (mkResult
             (Plain (mkTask Absent Absent Absent Absent Absent Absent Absent))
             [("_schema", "Invalid input type.")])
  end.

(** [schema.load(x).data] *)
Definition load_data (utcoffset : Z) (x : json) : outcome (loaded Task Task) :=
  (r <- load utcoffset x ;; Ret (data r))%out.

End TaskSchema.

Module AccountSchema.

(** [AccountSchema().load(x)]: [MakeAccount] subscripts both keys. *)
Definition load (utcoffset : Z) (x : json)
  : outcome (UnmarshalResult Account (attr datetime * attr datetime)) :=
  match x with
  | JDict kv =>
      (r1 <- load_field "lastEditTask" "lastedit_task"
               (custom_deserialize (ToodledoDatetime._deserialize utcoffset))
               kv ;;
       r2 <- load_field "lastDeleteTask" "lastdelete_task"
               (custom_deserialize (ToodledoDatetime._deserialize utcoffset))
               kv ;;
       match (field_errors (field_name "lastEditTask" "lastedit_task" kv) r1
              ++ field_errors
                   (field_name "lastDeleteTask" "lastdelete_task" kv) r2)%list
       with
       | [] =>
           match r1, r2 with
           | FValue e, FValue d => Ret (mkResult (Made (mkAccount e d)) [])
           | FValue _, _ => Exc (KeyError "lastDeleteTask")
           | _, _ => Exc (KeyError "lastEditTask")
           end
       | errs => Ret (mkResult (Plain (loaded_attr r1, loaded_attr r2)) errs)
       end)%out
  | JNull => Exc (TypeError "'NoneType' object is not subscriptable")
  | _ => Ret (mkResult (Plain (Absent, Absent))
                [("_schema", "Invalid input type.")])
  end.

End AccountSchema.

(** [DumpTaskList(taskList)] *)
Definition DumpTaskList (utcoffset : Z) (taskList : list Task)
  : outcome (list json) :=
  omap (TaskSchema.dump utcoffset) taskList.

(** ** Names bound in the module *)

(** What the imports, the classes and the functions of [toodledo.py] bind at
    module level.  None of them is a builtin name either. *)
Definition module_names : list string :=
  [ "date"; "datetime"; "partial"; "dump"; "dumps"; "load"; "debug"; "error";
    "fields"; "post_load"; "pre_load"; "Schema"; "Length"; "OAuth2Session";
    "ToodledoDate"; "ToodledoDatetime"; "ToodledoTags"; "Task";
    "ToodledoError"; "TaskSchema"; "Account"; "AccountSchema";
    "DumpTaskList"; "GetAccount"; "GetTasks"; "EditTasks"; "AddTasks";
    "DeleteTasks"; "Toodledo" ].

(** Reading a name that no local scope binds: the module's binding, or
    [NameError]. *)
Definition LOAD_GLOBAL (name : string) : outcome string :=
  if bool_decide (name ∈ module_names) then Ret name else Exc (NameError name).

(** The class an exception is an instance of. *)
Definition class_of (e : exn) : string :=
  match e with
  | NameError _ => "NameError"
  | TypeError _ => "TypeError"
  | ValueError _ => "ValueError"
  | KeyError _ => "KeyError"
  | AttributeError _ => "AttributeError"
  | AssertionError => "AssertionError"
  | HTTPError _ => "HTTPError"
  | TokenMissingError => "TokenMissingError"
  | TransportFailure _ => "ConnectionError"
  | ValidationError _ => "ValidationError"
  | ToodledoError _ _ => "ToodledoError"
  end.

(** ** HTTP sessions *)

Inductive method : Type := GET | POST.

(** A query parameter: a value as it is, or the text [dumps(j)], kept as the
    value [j] it spells. *)
Inductive param : Type :=
| Plain_value (j : json)
| Dumps (j : json).

Record Request : Type := mkRequest {
  verb : method;
  url : string;
  params : gmap string param
}.

(** [body] is what [response.json()] decodes, if the text is JSON at all. *)
Record Response : Type := mkResponse {
  status_code : Z;
  body : option json
}.

(** What the functions take as [session]: an [OAuth2Session], or the token
    mapping that [Authorize] returns. *)
Inductive session_obj : Type :=
| OAuth2Session (token : json)
| OAuth2Token (token : json).

Inductive event : Type :=
| Sent (r : Request)
| Authorized.

(** [response.raise_for_status()] *)
Definition raise_for_status (r : Response) : outcome unit :=
  if (400 <=? status_code r) && (status_code r <? 600)
  then Exc (HTTPError (status_code r)) else Ret tt.

(** [response.json()] *)
Definition json_of (r : Response) : outcome json :=
  match body r with
  | Some j => Ret j
  | None => Exc (ValueError "Expecting value")
  end.

Definition tokenUrl := "https://api.toodledo.com/3/account/token.php".
Definition getAccountUrl := "https://api.toodledo.com/3/account/get.php".
Definition getTasksUrl := "https://api.toodledo.com/3/tasks/get.php".
Definition deleteTasksUrl := "https://api.toodledo.com/3/tasks/delete.php".
Definition addTasksUrl := "https://api.toodledo.com/3/tasks/add.php".
Definition editTasksUrl := "https://api.toodledo.com/3/tasks/edit.php".

(** [tasks[1:]] and what [allTasks.extend] appends of it: the tail of a list,
    the characters of a string one by one; a mapping takes no slice. *)
Definition rest_of (tasks : json) : outcome (list json) :=
  match tasks with
  | JList l => Ret (tail_from_1 l)
  | JStr s =>
      Ret (map (fun c => JStr (String c EmptyString))
             (tail_from_1 (list_ascii_of_string s)))
  | JDict _ => Exc (TypeError "unhashable type: 'slice'")
  | _ => Exc (TypeError "object is not subscriptable")
  end.

Definition on_snd {X W A} (m : M W A) : M (X * W) A :=
  fun s => let (o, w') := m (snd s) in (o, (fst s, w')).

Definition on_fst {X W A} (m : M X A) : M (X * W) A :=
  fun s => let (o, x') := m (fst s) in (o, (x', snd s)).

Section Transport.

(** The remote service and whatever else is outside the process: its
    state and how it answers a request made with a given token. *)
Variable server : Type.
Variable send : json -> Request -> server -> (exn + Response) * server.
Variable utcoffset : Z.

Record World : Type := mkWorld {
  remote : server;
  log : list event
}.

Definition perform (token : json) (r : Request) : M World Response :=
  fun w =>
    let (answer, remote') := send token r (remote w) in
    let w' := mkWorld remote' (log w ++ [Sent r]) in
    match answer with
    | inl e => (Exc e, w')
    | inr response => (Ret response, w')
    end.

(** [session.get(url)]: on the token mapping this is [dict.get], which
    finds no such key. *)
Definition session_get (session : session_obj) (u : string)
  : M World (option Response) :=
  match session with
  | OAuth2Session token =>
      (r <- perform token (mkRequest GET u ∅) ;; ret (Some r))%world
  | OAuth2Token _ => ret None
  end.

(** [session.get(url, params=params)] *)
Definition session_get_params (session : session_obj) (u : string)
    (ps : gmap string param) : M World Response :=
  match session with
  | OAuth2Session token => perform token (mkRequest GET u ps)
  | OAuth2Token _ => raise (TypeError "get() takes no keyword arguments")
  end.

(** [session.post(url, params=params)] *)
Definition session_post (session : session_obj) (u : string)
    (ps : gmap string param) : M World Response :=
  match session with
  | OAuth2Session token => perform token (mkRequest POST u ps)
  | OAuth2Token _ => raise (AttributeError "post")
  end.

Definition GetAccount (session : session_obj)
  : M World (loaded Account (attr datetime * attr datetime)) :=
  (accountInfo <- session_get session getAccountUrl ;;
   match accountInfo with
   | None => raise (AttributeError "raise_for_status")
   | Some accountInfo =>
       lift (raise_for_status accountInfo) ;;
       j <- lift (json_of accountInfo) ;;
       r <- lift (AccountSchema.load utcoffset j) ;;
       ret (data r)
   end)%world.

(** [params[key] = value] on the mapping the caller passed in. *)
Definition setitem (key : string) (value : json)
  : M (gmap string json * World) unit :=
  fun s => (Ret tt, (<[key := value]> (fst s), snd s)).

Definition the_params : M (gmap string json * World) (gmap string json) :=
  fun s => (Ret (fst s), s).

(** The [while True] of [GetTasks]; [fuel] bounds the rounds. *)
Fixpoint GetTasks_loop (fuel : nat) (session : session_obj)
    (allTasks : list json) (limit start : nat)
  : M (gmap string json * World) (list json) :=
  match fuel with
  | O => fun s => (Diverge, s)
  | S fuel' =>
      (setitem "start" (JNum (Z.of_nat start)) ;;
       setitem "num" (JNum (Z.of_nat limit)) ;;
       ps <- the_params ;;
       response <- on_snd (session_get_params session getTasksUrl
                             (Plain_value <$> ps)) ;;
       lift (raise_for_status response) ;;
       tasks <- lift (json_of response) ;;
       failed <- lift (py_in "errorCode" tasks) ;;
       if (failed : bool) then
         errorCode <- lift (py_getitem tasks "errorCode") ;;
         raise (raise_ToodledoError errorCode)
       else
         page <- lift (rest_of tasks) ;;
         let allTasks := (allTasks ++ page)%list in
         if bool_decide (length page < limit)%nat then ret allTasks
         else GetTasks_loop fuel' session allTasks limit (start + limit))%world
  end.

(** [GetTasks(session, params)].  The state carries the caller's [params]
    mapping, which the loop writes into. *)
Definition GetTasks (fuel : nat) (session : session_obj)
  : M (gmap string json * World) (list (loaded Task Task)) :=
  (allTasks <- GetTasks_loop fuel session [] 1000 0 ;;
   lift (omap (TaskSchema.load_data utcoffset) allTasks))%world.

Fixpoint EditTasks_loop (fuel : nat) (session : session_obj)
    (taskList : list Task) (limit start : nat) : M World unit :=
  match fuel with
  | O => fun w => (Diverge, w)
  | S fuel' =>
      (listDump <- lift (DumpTaskList utcoffset (slice taskList start limit)) ;;
       response <- session_post session editTasksUrl
                     {[ "tasks" := Dumps (JList listDump) ]} ;;
       lift (raise_for_status response) ;;
       taskResponse <- lift (json_of response) ;;
       failed <- lift (py_in "errorCode" taskResponse) ;;
       if (failed : bool) then
         errorCode <- lift (py_getitem taskResponse "errorCode") ;;
         raise (raise_ToodledoError errorCode)
       else if bool_decide (length (slice taskList start limit) < limit)%nat
       then ret tt
       else EditTasks_loop fuel' session taskList limit (start + limit))%world
  end.

(** The loop runs at most [len(taskList) // 50 + 1] rounds. *)
Definition EditTasks (session : session_obj) (taskList : list Task)
  : M World unit :=
  if bool_decide (length taskList = 0%nat) then ret tt
  else EditTasks_loop (S (length taskList)) session taskList 50 0.

(** In [AddTasks] the error branch reads [tasks], a name the function
    never assigns; a module-level object would not take a subscript. *)
Fixpoint AddTasks_loop (fuel : nat) (session : session_obj)
    (taskList : list Task) (limit start : nat) : M World unit :=
  match fuel with
  | O => fun w => (Diverge, w)
  | S fuel' =>
      (listDump <- lift (DumpTaskList utcoffset (slice taskList start limit)) ;;
       response <- session_post session addTasksUrl
                     {[ "tasks" := Dumps (JList listDump) ]} ;;
       lift (raise_for_status response) ;;
       j <- lift (json_of response) ;;
       failed <- lift (py_in "errorCode" j) ;;
       if (failed : bool) then
         lift (LOAD_GLOBAL "tasks") ;;
         raise (TypeError "object is not subscriptable")
       else if bool_decide (length (slice taskList start limit) < limit)%nat
       then ret tt
       else AddTasks_loop fuel' session taskList limit (start + limit))%world
  end.

Definition AddTasks (session : session_obj) (taskList : list Task)
  : M World unit :=
  if bool_decide (length taskList = 0%nat) then ret tt
  else AddTasks_loop (S (length taskList)) session taskList 50 0.

(** [task.id_] *)
Definition getattr_id (task : Task) : outcome json :=
  match id_ task with
  | Absent => Exc (AttributeError "id_")
  | IsNone => Ret JNull
  | Val z => Ret (JNum z)
  end.

Fixpoint DeleteTasks_loop (fuel : nat) (session : session_obj)
    (taskIdList : list json) (limit start : nat) : M World unit :=
  match fuel with
  | O => fun w => (Diverge, w)
  | S fuel' =>
      (response <- session_post session deleteTasksUrl
                     {[ "tasks" := Dumps (JList (slice taskIdList start limit)) ]} ;;
       lift (raise_for_status response) ;;
       j <- lift (json_of response) ;;
       failed <- lift (py_in "errorCode" j) ;;
       if (failed : bool) then
         lift (LOAD_GLOBAL "tasks") ;;
         raise (TypeError "object is not subscriptable")
       else if bool_decide (length (slice taskIdList start limit) < limit)%nat
       then ret tt
       else DeleteTasks_loop fuel' session taskIdList limit (start + limit))%world
  end.

Definition DeleteTasks (session : session_obj) (taskList : list Task)
  : M World unit :=
  if bool_decide (length taskList = 0%nat) then ret tt
  else
    (taskIdList <- lift (omap getattr_id taskList) ;;
     DeleteTasks_loop (S (length taskIdList)) session taskIdList 50 0)%world.

End Transport.

Arguments remote {server} _.
Arguments log {server} _.
Arguments mkWorld {server} _ _.

(** ** The service client *)

(** Calling [fname] with one argument passed by keyword: the keyword has to
    be one of the function's parameter names. *)
Definition call_kw {W A} (fname : string) (formals : list string)
    (kw : string) (body : M W A) : M W A :=
  if bool_decide (kw ∈ formals) then body
  else raise (TypeError (fname ++ "() got an unexpected keyword argument '"
                           ++ kw ++ "'")%string).

Module Toodledo.

Record self_t : Type := mkSelf {
  tokenStorage : string;
  clientId : string;
  clientSecret : string;
  scope : string;
  session : session_obj
}.

Definition set_session (self : self_t) (s : session_obj) : self_t :=
  mkSelf (tokenStorage self) (clientId self) (clientSecret self) (scope self) s.

Section Methods.

Variable server : Type.
Variable send : json -> Request -> server -> (exn + Response) * server.
(** The interactive authorization: the user at the console, the token
    endpoint and the token file. *)
Variable authorize : server -> (exn + json) * server.
Variable utcoffset : Z.

(** [self.Authorize()]: returns the token it fetched. *)
Definition Authorize : M (World server) json :=
  fun w =>
    let (answer, remote') := authorize (remote w) in
    let w' := mkWorld remote' (log w ++ [Authorized]) in
    match answer with
    | inl e => (Exc e, w')
    | inr token => (Ret token, w')
    end.

Definition the_session {S} : M (self_t * S) session_obj :=
  fun st => (Ret (session (fst st)), st).

Definition assign_session {S} (s : session_obj) : M (self_t * S) unit :=
  fun st => (Ret tt, (set_session (fst st) s, snd st)).

(** [except TokenMissingError:] reads the name when an exception arrives,
    and handles the exception if it is an instance of what the name is
    bound to. *)
Definition ReauthorizeIfNecessary {S A} (Authorize : M S json)
    (func : session_obj -> M S A) : M (self_t * S) A :=
  catch (s <- the_session ;; on_snd (func s))%world
    (fun e =>
       cls <- lift (LOAD_GLOBAL "TokenMissingError") ;;
       if String.eqb (class_of e) cls then
         token <- on_snd Authorize ;;
         assign_session (OAuth2Token token) ;;
         s <- the_session ;;
         on_snd (func s)
       else raise e)%world.

(** The five methods end without a [return] statement: a call that
    completes yields [None]. *)
Definition GetAccount
  : M (self_t * World server)
      (option (loaded Account (attr datetime * attr datetime))) :=
  (ReauthorizeIfNecessary Authorize (GetAccount server send utcoffset) ;;
   ret None)%world.

Definition GetTasks (fuel : nat)
  : M (self_t * (gmap string json * World server))
      (option (list (loaded Task Task))) :=
  (ReauthorizeIfNecessary (on_snd Authorize)
     (fun s => call_kw "GetTasks" ["session"; "params"] "params"
                 (GetTasks server send utcoffset fuel s)) ;;
   ret None)%world.

(** [partial(EditTasks, params=params)]: were the keyword accepted, the
    call would still lack [taskList]. *)
Definition EditTasks (params : list Task)
  : M (self_t * World server) (option unit) :=
  (ReauthorizeIfNecessary Authorize
     (fun s => call_kw "EditTasks" ["session"; "taskList"] "params"
                 (raise (TypeError "EditTasks() missing 1 required positional argument: 'taskList'")
                  : M (World server) unit)) ;;
   ret None)%world.

Definition AddTasks (params : list Task)
  : M (self_t * World server) (option unit) :=
  (ReauthorizeIfNecessary Authorize
     (fun s => call_kw "AddTasks" ["session"; "taskList"] "params"
                 (raise (TypeError "AddTasks() missing 1 required positional argument: 'taskList'")
                  : M (World server) unit)) ;;
   ret None)%world.

Definition DeleteTasks (params : list Task)
  : M (self_t * World server) (option unit) :=
  (ReauthorizeIfNecessary Authorize
     (fun s => call_kw "DeleteTasks" ["session"; "taskList"] "params"
                 (raise (TypeError "DeleteTasks() missing 1 required positional argument: 'taskList'")
                  : M (World server) unit)) ;;
   ret None)%world.

End Methods.

End Toodledo.

(** ** Reference definitions for the statements *)

(** The batches of [l] in closed form: batch [k] is the slice of [limit]
    items from position [k * limit], for [k] up to [len(l) // limit]; no
    batch at all for an empty list. *)
Definition batches {A} (limit : nat) (l : list A) : list (list A) :=
  match l with
  | [] => []
  | _ => map (fun k => slice l (k * limit) limit)
           (seq 0 (S (length l / limit)))
  end.

(** The batches from number [k] on. *)
Definition batches_from {A} (limit : nat) (l : list A) (k : nat)
  : list (list A) :=
  map (fun i => slice l (i * limit) limit)
    (seq k (S (length l / limit) - k)).

(** The world after a request went out and its answer was read. *)
Definition answered {server} (w : World server) (s' : server) (e : event)
  : World server :=
  mkWorld s' (log w ++ [e]).

(** [sorted(trimmed(tags))] and [trimmed(sorted(tags))] *)
Definition sorted_trimmed (tags : list string) : list string :=
  sorted (map strip tags).
Definition trimmed_sorted (tags : list string) : list string :=
  map strip (sorted tags).

(** [decode(encode(tags))] for the tag codec. *)
Definition tags_roundtrip (tags : list string) : outcome (list string) :=
  (v <- ToodledoTags._serialize (Some tags) ;;
   ToodledoTags._deserialize (JStr v))%out.

Fixpoint has_comma (s : string) : bool :=
  match s with
  | EmptyString => false
  | String c rest => Ascii.eqb c "," || has_comma rest
  end.

(** [decode(encode(d))] for the date codec, the wire value being the number
    that [encode] returned. *)
Definition date_roundtrip (utcoffset : Z) (d : date) : outcome (option date) :=
  ToodledoDate._deserialize utcoffset
    (JNum (ToodledoDate._serialize utcoffset (Some d))).

Definition date_eqb (a b : date) : bool :=
  (year a =? year b) && (month a =? month b) && (day a =? day b).

(** Every day of month [m] of year [y] survives the trip through its
    ordinal; likewise for a whole year and for the years [y0 .. y0+n-1]. *)
Definition month_ok (y m : Z) : bool :=
  forallb (fun k => let d := mkdate y m (Z.of_nat k) in
                    date_eqb (ord2ymd (ymd2ord d)) d)
    (seq 1 (Z.to_nat (days_in_month y m))).

Definition year_ok (y : Z) : bool :=
  forallb (fun k => month_ok y (Z.of_nat k)) (seq 1 12).

Definition years_ok (y0 : nat) (n : nat) : bool :=
  forallb (fun k => year_ok (Z.of_nat k)) (seq y0 n).

(** The calendar date [d] at noon. *)
Definition at_noon (d : date) : datetime := mkdatetime d 12 0 0.

(** A service that plays back a prepared list of answers, one per request,
    and refuses the connection once the list is used up. *)
Definition playback (token : json) (r : Request) (answers : list Response)
  : (exn + Response) * list Response :=
  match answers with
  | [] => (inl (TransportFailure "connection refused"), [])
  | a :: rest => (inr a, rest)
  end.

(** A page of a task listing: the count/status element, then the records. *)
Definition page_response (marker : json) (records : list json) : Response :=
  mkResponse 200 (Some (JList (marker :: records))).

(** A service whose every answer is a success without an error marker. *)
Definition answers_ok {server : Type}
    (send : json -> Request -> server -> (exn + Response) * server) : Prop :=
  forall token r s, exists response s' j,
    send token r s = (inr response, s')
    /\ raise_for_status response = Ret tt
    /\ body response = Some j
    /\ py_in "errorCode" j = Ret false.

(** A service whose every answer carries an error marker with [errorCode]. *)
Definition answers_error {server : Type}
    (send : json -> Request -> server -> (exn + Response) * server)
    (errorCode : json) : Prop :=
  forall token r s, exists response s' j,
    send token r s = (inr response, s')
    /\ raise_for_status response = Ret tt
    /\ body response = Some j
    /\ py_in "errorCode" j = Ret true
    /\ py_getitem j "errorCode" = Ret errorCode.

(** A service that accepts everything and says nothing. *)
Definition accept (token : json) (r : Request) (s : unit)
  : (exn + Response) * unit :=
  (inr (mkResponse 200 (Some (JList []))), s).

(** The body the service sends for a refused call. *)
Definition error_response (errorCode : Z) (errorDesc : string) : Response :=
  mkResponse 200
    (Some (JDict [("errorCode", JNum errorCode); ("errorDesc", JStr errorDesc)])).

(** A service whose every answer is that refusal. *)
Definition refuse (errorCode : Z) (errorDesc : string)
    (token : json) (r : Request) (s : unit) : (exn + Response) * unit :=
  (inr (error_response errorCode errorDesc), s).

Definition sample_task (n : Z) : Task :=
  mkTask (Val n) (Val "Buy milk") (Val ["home"; "errands"])
    (Val (mkdate 2020 2 29)) IsNone Absent IsNone.

Definition sample_wire (n : Z) : json :=
  JDict [("id", JNum n); ("title", JStr "Buy milk");
         ("tag", JStr "errands, home"); ("startdate", JNum 1582934400);
         ("duedate", JNum 0); ("completed", JNum 0)].

Definition sample_loaded (n : Z) : loaded Task Task :=
  Made (mkTask (Val n) (Val "Buy milk") (Val ["errands"; "home"])
          (Val (mkdate 2020 2 29)) IsNone Absent IsNone).

Definition sample_marker : json :=
  JDict [("num", JNum 1000); ("total", JNum 2400)].

(** A title of 256 characters, and a task that has it. *)
Definition long_title : string :=
  String.concat "" (replicate 256 "x").

Definition long_task : Task :=
  mkTask (Val 1) (Val long_title) Absent Absent Absent Absent Absent.

(** A service that finds the token missing, an authorization that hands
    out a fresh token, and a client. *)
Definition token_missing (token : json) (r : Request) (s : unit)
  : (exn + Response) * unit :=
  (inl TokenMissingError, s).

Definition fresh_token (s : unit) : (exn + json) * unit :=
  (inr (JDict [("access_token", JStr "fresh")]), s).

Definition account_answer (token : json) (r : Request) (s : unit)
  : (exn + Response) * unit :=
  (inr (mkResponse 200
          (Some (JDict [("lastedit_task", JNum 1582934400);
                        ("lastdelete_task", JNum 0)]))), s).

Definition sample_self : Toodledo.self_t :=
  Toodledo.mkSelf "tokens.json" "id" "secret" "basic tasks write"
    (OAuth2Session (JDict [("access_token", JStr "stale")])).

(** The request of one round of [GetTasks], given the mapping as the round
    found it. *)
Definition page_params (ps : gmap string json) (limit start : nat)
  : gmap string json :=
  <["num" := JNum (Z.of_nat limit)]> (<["start" := JNum (Z.of_nat start)]> ps).

Definition page_request (ps : gmap string json) (limit start : nat) : Request :=
  mkRequest GET getTasksUrl (Plain_value <$> page_params ps limit start).

(** What [n] rounds of [GetTasks] send, and what they leave in the caller's
    mapping. *)
Definition rounds (ps : gmap string json) (limit start n : nat) : list event :=
  map (fun i => Sent (page_request ps limit (start + i * limit))) (seq 0 n).

Definition params_after (ps : gmap string json) (limit start n : nat)
  : gmap string json :=
  match n with
  | O => ps
  | S m => page_params ps limit (start + m * limit)
  end.

Definition post (u : string) (payload : list json) : event :=
  Sent (mkRequest POST u {[ "tasks" := Dumps (JList payload) ]}).

(** ** Further definitions: the rest of the module's behaviour *)

(** [task.IsComplete()]: reading an attribute that is not there raises. *)
Definition IsComplete (self : Task) : outcome bool :=
  match completedDate self with
  | Absent => Exc (AttributeError "completedDate")
  | IsNone => Ret false
  | Val _ => Ret true
  end.


(** The dates whose encoding [timestamp()] computes: the codec asks for
    the timestamp of the date at 0:00:00. *)
Definition date_encodes (utcoffset : Z) (d : date) : bool :=
  timestamp_returns utcoffset (datetime_ymd (year d) (month d) (day d)).

(** A task all of whose dates and timestamps [timestamp()] accepts. *)
Definition stamps_encode (utcoffset : Z) (task : Task) : bool :=
  let date_ok (a : attr date) :=
    match a with
    | Val d => date_encodes utcoffset d
    | _ => true
    end in
  date_ok (startDate task) && date_ok (dueDate task)
  && match modified task with
     | Val dt => timestamp_returns utcoffset dt
     | _ => true
     end
  && date_ok (completedDate task).

(** Each of the [n] ordinals from [k] on is the ordinal of its date. *)
Fixpoint ords_ok (n : nat) (k : Z) : bool :=
  match n with
  | O => true
  | S n' => (ymd2ord (ord2ymd k) =? k) && ords_ok n' (k + 1)
  end.

(** The value a field puts on the wire, in the shape [dump] combines them. *)
Definition field_entry (key : string) (o : option json)
  : list (string * json) :=
  match o with
  | None => []
  | Some j => [(key, j)]
  end.

Fixpoint count_commas (s : string) : nat :=
  match s with
  | EmptyString => O
  | String c rest => (if Ascii.eqb c "," then 1 else 0) + count_commas rest
  end.

(** A service whose every answer is a page of [limit] records. *)
Definition full_page (limit : nat) (record : json)
    (token : json) (r : Request) (s : unit) : (exn + Response) * unit :=
  (inr (page_response sample_marker (replicate limit record)), s).

(** A service whose every answer has the HTTP status [status]. *)
Definition answers_status {server : Type}
    (send : json -> Request -> server -> (exn + Response) * server)
    (status : Z) : Prop :=
  forall token r s, exists response s',
    send token r s = (inr response, s') /\ status_code response = status.

Definition fail_with (status : Z) (token : json) (r : Request) (s : unit)
  : (exn + Response) * unit :=
  (inr (mkResponse status None), s).

(** The order in which [sorted] puts strings. *)
Definition leb_rel : relation string := fun a b => String.leb a b = true.

(** The wire value of each attribute of a task, if the attribute is set. *)
Definition wire_id (a : attr Z) : option json :=
  match a with
  | Absent => None
  | IsNone => Some JNull
  | Val z => Some (JNum z)
  end.

Definition wire_title (a : attr string) : option json :=
  match a with
  | Absent => None
  | IsNone => Some JNull
  | Val s => Some (JStr s)
  end.

Definition wire_tags (a : attr (list string)) : option json :=
  match a with
  | Val l => Some (JStr (join ", " (sorted l)))
  | _ => None
  end.

Definition wire_date (utcoffset : Z) (a : attr date) : option json :=
  (fun v => JNum (ToodledoDate._serialize utcoffset v)) <$> as_option a.

Definition wire_datetime (utcoffset : Z) (a : attr datetime) : option json :=
  (fun v => JNum (ToodledoDatetime._serialize utcoffset v)) <$> as_option a.

(** The record that [dump] makes of a task: the attributes that are set,
    under their wire names, in the order of the schema. *)
Definition wire_record (utcoffset : Z) (task : Task) : list (string * json) :=
  (field_entry "id" (wire_id (id_ task))
   ++ field_entry "title" (wire_title (title task))
   ++ field_entry "tag" (wire_tags (tags task))
   ++ field_entry "startdate" (wire_date utcoffset (startDate task))
   ++ field_entry "duedate" (wire_date utcoffset (dueDate task))
   ++ field_entry "modified" (wire_datetime utcoffset (modified task))
   ++ field_entry "completed" (wire_date utcoffset (completedDate task)))%list.





(** The value that [load] reads for a field: under the attribute name, or
    else under the wire name. *)
Definition raw_value (attr_name load_from : string) (kv : list (string * json))
  : option json :=
  match assoc attr_name kv with
  | Some v => Some v
  | None => assoc load_from kv
  end.



(** A service whose every answer is a page of [limit] records or more. *)
Definition answers_full_pages {server : Type}
    (send : json -> Request -> server -> (exn + Response) * server)
    (limit : nat) : Prop :=
  forall token r s, exists s' marker records,
    send token r s = (inr (page_response marker records), s')
    /\ (limit <= length records)%nat
    /\ existsb (is_str "errorCode") (marker :: records) = false.

(** The answers of a listing: one page per pair of a first element and the
    records behind it. *)
Definition pages (ps : list (json * list json)) : list Response :=
  map (fun mp => page_response (fst mp) (snd mp)) ps.

Definition full_and_clean (limit : nat) (mp : json * list json) : Prop :=
  (limit <= length (snd mp))%nat
  /\ existsb (is_str "errorCode") (fst mp :: snd mp) = false.


Definition task_without_id : Task :=
  mkTask Absent (Val "Buy milk") Absent Absent Absent Absent Absent.

(** * Properties *)

(** ** Strings and the tag codec *)

Lemma strip_leading_space s : strip (String " " s) = strip s.
Proof. reflexivity. Qed.

Lemma split_no_comma s : has_comma s = false -> split "," s = [s].
Proof.
  induction s as [|c s IH]; simpl; [reflexivity|].
  intros H. apply orb_false_iff in H as [Hc Hs].
  rewrite Hc, (IH Hs). reflexivity.
Qed.

Lemma split_app_comma a b :
  has_comma a = false ->
  split "," (a ++ String "," b) = a :: split "," b.
Proof.
  induction a as [|c a IH]; simpl; [reflexivity|].
  intros H. apply orb_false_iff in H as [Hc Ha].
  rewrite Hc, (IH Ha). reflexivity.
Qed.

(** Splitting a join on the comma gives the first piece back as it is and
    every later piece behind the blank of the separator. *)
Lemma split_join x xs :
  Forall (fun t => has_comma t = false) (x :: xs) ->
  split "," (join ", " (x :: xs)) = x :: map (String " ") xs.
Proof.
  revert x. induction xs as [|y ys IH]; intros x H.
  - simpl. apply split_no_comma. now inversion H.
  - inversion H as [|? ? Hx Hrest]; subst.
    change (join ", " (x :: y :: ys))
      with (x ++ String "," (String " " (join ", " (y :: ys))))%string.
    rewrite (split_app_comma _ _ Hx).
    f_equal.
    change (split "," (String " " (join ", " (y :: ys))))
      with (match split "," (join ", " (y :: ys)) with
            | [] => [String " " EmptyString]
            | p :: ps => String " " p :: ps
            end).
    rewrite (IH y Hrest). reflexivity.
Qed.

Lemma join_empty x xs : join ", " (x :: xs) = "" -> x = "" /\ xs = [].
Proof.
  destruct xs as [|y ys]; simpl.
  - intros ->. split; reflexivity.
  - destruct x; simpl; discriminate.
Qed.

Lemma insert_sorted_Forall (P : string -> Prop) x xs :
  P x -> Forall P xs -> Forall P (insert_sorted x xs).
Proof.
  intros Hx. induction 1 as [|y ys Hy Hys IH]; simpl.
  - repeat constructor. exact Hx.
  - destruct (String.leb x y); repeat constructor; assumption.
Qed.

Lemma sorted_Forall (P : string -> Prop) xs :
  Forall P xs -> Forall P (sorted xs).
Proof.
  induction 1; simpl; [constructor|].
  apply insert_sorted_Forall; assumption.
Qed.

Lemma insert_sorted_length x xs :
  length (insert_sorted x xs) = S (length xs).
Proof.
  induction xs as [|y ys IH]; simpl; [reflexivity|].
  destruct (String.leb x y); simpl; [reflexivity|]. now rewrite IH.
Qed.

Lemma sorted_length xs : length (sorted xs) = length xs.
Proof.
  induction xs as [|x xs IH]; simpl; [reflexivity|].
  now rewrite insert_sorted_length, IH.
Qed.

Lemma sorted_singleton xs x : sorted xs = [x] -> xs = [x].
Proof.
  intros H. pose proof (sorted_length xs) as Hl. rewrite H in Hl.
  destruct xs as [|y [|z zs]]; simpl in Hl; try discriminate.
  exact H.
Qed.

Lemma map_strip_pieces xs :
  map strip (map (String " ") xs) = map strip xs.
Proof.
  rewrite map_map. apply map_ext. intros t. apply strip_leading_space.
Qed.

Lemma sorted_pretrimmed xs :
  Forall (fun t => strip t = t) xs -> trimmed_sorted xs = sorted_trimmed xs.
Proof.
  intros H. unfold trimmed_sorted, sorted_trimmed.
  assert (Hid : forall l, Forall (fun t => strip t = t) l -> map strip l = l).
  { induction 1 as [|t l Ht _ IH]; simpl; [reflexivity|]. now rewrite Ht, IH. }
  rewrite (Hid xs H). apply Hid. apply sorted_Forall. exact H.
Qed.

(** C6, as the code has it: for a list of tags none of which holds a comma,
    other than the list of one empty tag, decoding the encoding gives the
    sorted tags, each trimmed after the sort; when the tags carry no
    surrounding blanks this is [sorted(trimmed(tags))].  The empty list
    encodes to the empty string and the empty string decodes to the empty
    list. *)
Theorem tags_roundtrip_trimmed_sorted (tags : list string) :
  Forall (fun t => has_comma t = false) tags ->
  tags <> [""] ->
  tags_roundtrip tags = Ret (trimmed_sorted tags)
  /\ (Forall (fun t => strip t = t) tags ->
      tags_roundtrip tags = Ret (sorted_trimmed tags))
  /\ ToodledoTags._serialize (Some []) = Ret ""
  /\ ToodledoTags._deserialize (JStr "") = Ret [].
Proof.
  intros Hc Hne.
  assert (Hmain : tags_roundtrip tags = Ret (trimmed_sorted tags)).
  { unfold tags_roundtrip, trimmed_sorted. simpl.
    pose proof (sorted_Forall _ _ Hc) as Hs.
    destruct (sorted tags) as [|x xs] eqn:E; [reflexivity|].
    destruct (String.eqb (join ", " (x :: xs)) "") eqn:Ej.
    - apply String.eqb_eq, join_empty in Ej as [-> ->].
      apply sorted_singleton in E. contradiction.
    - rewrite (split_join _ _ Hs). simpl map.
      now rewrite map_strip_pieces. }
  split; [exact Hmain|]. split; [|split; reflexivity].
  intros Ht. rewrite Hmain. f_equal. apply sorted_pretrimmed. exact Ht.
Qed.

Lemma tags_roundtrip_trimmed_sorted_witness :
  tags_roundtrip [" work"; "home "; "Errands"]
  = Ret (trimmed_sorted [" work"; "home "; "Errands"]).
Proof.
  apply (tags_roundtrip_trimmed_sorted [" work"; "home "; "Errands"]).
  - repeat constructor.
  - discriminate.
Defined.

(** C6 as stated fails: one empty tag is lost, a tag holding a comma comes
    back as two, and a tag with a leading blank is sorted before it is
    trimmed. *)
Lemma tags_roundtrip_not_sorted_trimmed :
  tags_roundtrip [""] <> Ret (sorted_trimmed [""])
  /\ tags_roundtrip ["a,b"] <> Ret (sorted_trimmed ["a,b"])
  /\ tags_roundtrip [" b"; "a"] <> Ret (sorted_trimmed [" b"; "a"]).
Proof.
  repeat split; vm_compute; discriminate.
Qed.

(** ** The calendar and the date codec *)

Ltac zdiv := Z.div_mod_to_equations; lia.

Lemma is_leap_period y k : is_leap (y + 400 * k) = is_leap y.
Proof.
  unfold is_leap.
  replace ((y + 400 * k) mod 4) with (y mod 4) by zdiv.
  replace ((y + 400 * k) mod 100) with (y mod 100) by zdiv.
  replace ((y + 400 * k) mod 400) with (y mod 400) by zdiv.
  reflexivity.
Qed.

Lemma days_before_year_period y k :
  days_before_year (y + 400 * k) = days_before_year y + DI400Y * k.
Proof. unfold days_before_year, DI400Y. zdiv. Qed.

Lemma ymd2ord_period y m d k :
  ymd2ord (mkdate (y + 400 * k) m d) = ymd2ord (mkdate y m d) + DI400Y * k.
Proof.
  unfold ymd2ord, days_before_month. simpl.
  rewrite days_before_year_period, is_leap_period. lia.
Qed.

Lemma ord2ymd_period n k :
  ord2ymd (n + DI400Y * k)
  = let d := ord2ymd n in mkdate (year d + 400 * k) (month d) (day d).
Proof.
  unfold ord2ymd.
  replace ((n + DI400Y * k - 1) / DI400Y) with ((n - 1) / DI400Y + k)
    by (unfold DI400Y; zdiv).
  replace ((n + DI400Y * k - 1) mod DI400Y) with ((n - 1) mod DI400Y)
    by (unfold DI400Y; zdiv).
  cbv zeta.
  repeat match goal with
         | |- context [if ?b then _ else _] => destruct b
         end; simpl; f_equal; lia.
Qed.

Lemma years_ok_cycle : years_ok 1 400 = true.
Proof. vm_compute. reflexivity. Qed.

Lemma date_eqb_eq a b : date_eqb a b = true -> a = b.
Proof.
  destruct a, b. unfold date_eqb. simpl. intros H.
  apply andb_true_iff in H as [H Hd]. apply andb_true_iff in H as [Hy Hm].
  apply Z.eqb_eq in Hy, Hm, Hd. congruence.
Qed.

Lemma month_ok_spec y m d :
  month_ok y m = true -> 1 <= d <= days_in_month y m ->
  ord2ymd (ymd2ord (mkdate y m d)) = mkdate y m d.
Proof.
  unfold month_ok. rewrite forallb_forall. intros H Hd.
  specialize (H (Z.to_nat d)). rewrite Z2Nat.id in H by lia.
  apply date_eqb_eq, H, in_seq. lia.
Qed.

Lemma year_ok_spec y m :
  year_ok y = true -> 1 <= m <= 12 -> month_ok y m = true.
Proof.
  unfold year_ok. rewrite forallb_forall. intros H Hm.
  specialize (H (Z.to_nat m)). rewrite Z2Nat.id in H by lia.
  apply H, in_seq. lia.
Qed.

Lemma years_ok_spec y0 n y :
  years_ok y0 n = true -> Z.of_nat y0 <= y < Z.of_nat y0 + Z.of_nat n ->
  year_ok y = true.
Proof.
  unfold years_ok. rewrite forallb_forall. intros H Hy.
  specialize (H (Z.to_nat y)). rewrite Z2Nat.id in H by lia.
  apply H, in_seq. lia.
Qed.

Lemma ord2ymd_ymd2ord_cycle y m d :
  1 <= y <= 400 -> 1 <= m <= 12 -> 1 <= d <= days_in_month y m ->
  ord2ymd (ymd2ord (mkdate y m d)) = mkdate y m d.
Proof.
  intros Hy Hm Hd.
  apply month_ok_spec; [|exact Hd].
  apply year_ok_spec; [|exact Hm].
  apply (years_ok_spec 1 400); [exact years_ok_cycle|].
  change (Z.of_nat 1) with 1. change (Z.of_nat 400) with 400. lia.
Qed.

(** A date of any year, with a month and a day that exist, is the date of
    its ordinal. *)
Lemma ord2ymd_ymd2ord y m d :
  1 <= m <= 12 -> 1 <= d <= days_in_month y m ->
  ord2ymd (ymd2ord (mkdate y m d)) = mkdate y m d.
Proof.
  intros Hm Hd.
  set (k := (y - 1) / 400). set (y0 := (y - 1) mod 400 + 1).
  assert (Hy : y = y0 + 400 * k) by (unfold y0, k; zdiv).
  assert (Hy0 : 1 <= y0 <= 400) by (unfold y0; zdiv).
  rewrite Hy in *. clearbody y0 k. clear Hy.
  unfold days_in_month in Hd. rewrite is_leap_period in Hd.
  rewrite ymd2ord_period, ord2ymd_period.
  rewrite ord2ymd_ymd2ord_cycle by (unfold days_in_month; lia).
  reflexivity.
Qed.

Lemma valid_date_fields d :
  valid_date d = true ->
  1 <= year d <= 9999 /\ 1 <= month d <= 12
  /\ 1 <= day d <= days_in_month (year d) (month d).
Proof.
  unfold valid_date. intros H.
  repeat (apply andb_true_iff in H as [H ?]).
  repeat match goal with
         | H : (_ <=? _) = true |- _ => apply Z.leb_le in H
         end.
  lia.
Qed.

(** The ordinal of a date that a [date] object can hold is one that
    [date.fromtimestamp] accepts. *)
Lemma ymd2ord_range d :
  valid_date d = true -> 1 <= ymd2ord d <= MAX_ORDINAL.
Proof.
  intros H. apply valid_date_fields in H as (Hy & Hm & Hd).
  destruct d as [y m dd]; simpl in *.
  unfold ymd2ord, days_before_year, days_before_month, days_in_month,
    MAX_ORDINAL in *; simpl in *.
  assert (Hcases : m = 1 \/ m = 2 \/ m = 3 \/ m = 4 \/ m = 5 \/ m = 6 \/ m = 7
                   \/ m = 8 \/ m = 9 \/ m = 10 \/ m = 11 \/ m = 12) by lia.
  assert (Hleap : y = 9999 -> is_leap y = false) by (intros ->; reflexivity).
  destruct (is_leap y);
    repeat (destruct Hcases as [-> | Hcases]); try subst m; simpl in *;
    try (assert (y <> 9999) by (intros E; specialize (Hleap E); discriminate));
    zdiv.
Qed.

Lemma local_ordinal_timestamp utcoffset d :
  local_ordinal utcoffset
    (timestamp utcoffset (datetime_ymd (year d) (month d) (day d)))
  = ymd2ord d.
Proof.
  unfold local_ordinal, timestamp, datetime_ymd. simpl.
  destruct d as [y m dd]; simpl.
  generalize (ymd2ord (mkdate y m dd)). intros n. zdiv.
Qed.

(** Away from the wire value 0 the date codec does give the date back, in
    any time zone. *)
Lemma date_roundtrip_nonzero utcoffset d :
  valid_date d = true ->
  ToodledoDate._serialize utcoffset (Some d) <> 0 ->
  date_roundtrip utcoffset d = Ret (Some d).
Proof.
  intros Hv Hnz. unfold date_roundtrip.
  assert (Hloc : local_ordinal utcoffset
                   (ToodledoDate._serialize utcoffset (Some d)) = ymd2ord d)
    by apply local_ordinal_timestamp.
  remember (ToodledoDate._serialize utcoffset (Some d)) as t eqn:Et.
  unfold ToodledoDate._deserialize, eq_zero.
  apply Z.eqb_neq in Hnz. rewrite Hnz.
  unfold py_float, obind, date_fromtimestamp. rewrite Hloc.
  pose proof (ymd2ord_range d Hv) as [Hlo Hhi].
  apply Z.leb_le in Hlo, Hhi. rewrite Hlo, Hhi. simpl andb. cbv iota.
  apply valid_date_fields in Hv as (_ & Hm & Hd).
  destruct d as [y m dd]; simpl in Hm, Hd.
  rewrite ord2ymd_ymd2ord by assumption. reflexivity.
Qed.

(** C4: an unset date encodes to 0, but a date encodes to the epoch seconds
    of its local midnight, 43200 seconds before its noon; in UTC the day
    after the epoch encodes to 86400 where noon is 129600. *)
Theorem ToodledoDate_serialize_is_midnight (utcoffset : Z) (d : date) :
  ToodledoDate._serialize utcoffset None = 0
  /\ ToodledoDate._serialize utcoffset (Some d)
     = timestamp utcoffset (at_noon d) - 43200
  /\ ToodledoDate._serialize 0 (Some (mkdate 1970 1 2)) = 86400
  /\ timestamp 0 (at_noon (mkdate 1970 1 2)) = 129600.
Proof.
  split; [reflexivity|]. split; [|split; reflexivity].
  destruct d as [y m dd]. unfold ToodledoDate._serialize, timestamp, at_noon.
  simpl. lia.
Qed.

(** C5: in UTC the date 1970-01-01 encodes to 0, the wire value of an unset
    date, and decodes to no date at all. *)
Theorem date_roundtrip_loses_epoch_day :
  valid_date (mkdate 1970 1 1) = true
  /\ ToodledoDate._serialize 0 (Some (mkdate 1970 1 1)) = 0
  /\ date_roundtrip 0 (mkdate 1970 1 1) = Ret None
  /\ ToodledoDate._deserialize 0 (JNum (timestamp 0 (at_noon (mkdate 1970 1 1))))
     = Ret (Some (mkdate 1970 1 1)).
Proof. repeat split; reflexivity. Qed.

(** ** Comprehensions and slices *)

Lemma omap_length {A B} (f : A -> outcome B) xs ys :
  omap f xs = Ret ys -> length ys = length xs.
Proof.
  revert ys. induction xs as [|x xs IH]; simpl; intros ys H.
  - now inversion H.
  - destruct (f x); try discriminate. simpl in H.
    destruct (omap f xs) as [zs| |]; try discriminate. simpl in H.
    inversion H; subst. simpl. f_equal. now apply IH.
Qed.

Lemma omap_take {A B} (f : A -> outcome B) xs ys n :
  omap f xs = Ret ys -> omap f (take n xs) = Ret (take n ys).
Proof.
  revert xs ys. induction n as [|n IH]; intros xs ys H; [reflexivity|].
  destruct xs as [|x xs]; simpl in *.
  - now inversion H.
  - destruct (f x); try discriminate. simpl in *.
    destruct (omap f xs) as [zs| |] eqn:E; try discriminate. simpl in H.
    inversion H; subst. simpl. now rewrite (IH xs zs E).
Qed.

Lemma omap_drop {A B} (f : A -> outcome B) xs ys n :
  omap f xs = Ret ys -> omap f (drop n xs) = Ret (drop n ys).
Proof.
  revert xs ys. induction n as [|n IH]; intros xs ys H; [exact H|].
  destruct xs as [|x xs]; simpl in *.
  - now inversion H.
  - destruct (f x); try discriminate. simpl in *.
    destruct (omap f xs) as [zs| |] eqn:E; try discriminate. simpl in H.
    inversion H; subst. simpl. now apply IH.
Qed.

Lemma omap_slice {A B} (f : A -> outcome B) xs ys start limit :
  omap f xs = Ret ys ->
  omap f (slice xs start limit) = Ret (slice ys start limit).
Proof. intros H. unfold slice. now apply omap_take, omap_drop. Qed.

Lemma slice_length {A} (l : list A) start limit :
  length (slice l start limit) = Nat.min limit (length l - start).
Proof. unfold slice. now rewrite length_take, length_drop. Qed.

(** Below the last batch a slice is full; the last one is short. *)
Lemma slice_full {A} (l : list A) limit k :
  (0 < limit)%nat -> (k < length l / limit)%nat ->
  length (slice l (k * limit) limit) = limit.
Proof.
  intros Hl Hk. rewrite slice_length.
  pose proof (Nat.div_mod_eq (length l) limit).
  pose proof (Nat.mod_upper_bound (length l) limit).
  nia.
Qed.

Lemma slice_short {A} (l : list A) limit :
  (0 < limit)%nat ->
  length (slice l (length l / limit * limit) limit) = (length l mod limit)%nat.
Proof.
  intros Hl. rewrite slice_length.
  pose proof (Nat.div_mod_eq (length l) limit).
  pose proof (Nat.mod_upper_bound (length l) limit).
  nia.
Qed.

Section Batches.

Local Open Scope nat_scope.

Lemma full_batches_lengths {A} (l : list A) limit n k :
(0 < limit)%nat -> (k + n <= length l / limit)%nat ->
map (fun i => length (slice l (i * limit) limit)) (seq k n)
= repeat limit n.
Proof.
intros Hl. revert k. induction n as [|n IH]; intros k Hk; [reflexivity|].
simpl. rewrite slice_full by lia. f_equal. apply IH. lia.
Qed.

(** The sizes of the batches: full ones, then the remainder, even when the
  remainder is nothing. *)
Lemma batches_lengths {A} (l : list A) limit :
(0 < limit)%nat -> l <> [] ->
map length (batches limit l)
= (repeat limit (length l / limit) ++ [length l mod limit])%list.
Proof.
intros Hl Hne. unfold batches. destruct l as [|x l]; [contradiction|].
rewrite seq_S, !map_app, map_map.
rewrite full_batches_lengths by (simpl; lia).
cbn [map]. rewrite Nat.add_0_l, slice_short by assumption. reflexivity.
Qed.

Lemma concat_slices {A} (l : list A) limit n k :
concat (map (fun i => slice l (i * limit) limit) (seq k n))
= take (n * limit) (drop (k * limit) l).
Proof.
revert k. induction n as [|n IH]; intros k; [reflexivity|].
simpl seq. simpl map. simpl concat. rewrite IH. unfold slice.
replace (S k * limit)%nat with (k * limit + limit)%nat by lia.
rewrite <- drop_drop, take_take_drop. reflexivity.
Qed.

(** The batches, put end to end, are the list. *)
Lemma concat_batches {A} (l : list A) limit :
(0 < limit)%nat -> concat (batches limit l) = l.
Proof.
intros Hl. unfold batches. destruct l as [|x l]; [reflexivity|].
rewrite concat_slices. simpl drop. apply take_ge.
pose proof (Nat.div_mod_eq (length (x :: l)) limit).
pose proof (Nat.mod_upper_bound (length (x :: l)) limit). nia.
Qed.

Lemma batches_lookup {A} (l : list A) limit k c :
batches limit l !! k = Some c ->
c = slice l (k * limit) limit
/\ length c = Nat.min limit (length l - k * limit).
Proof.
unfold batches. destruct l as [|x l]; [discriminate|].
rewrite list_lookup_fmap. intros H.
destruct (seq 0 (S (length (x :: l) / limit)) !! k) as [i|] eqn:E;
  [|discriminate].
apply lookup_seq in E as [-> _]. simpl in H. inversion H; subst.
split; [reflexivity|]. apply slice_length.
Qed.

End Batches.

(** ** The batch transport *)

Section TransportProperties.

Context {server : Type}.
Variable send : json -> Request -> server -> (exn + Response) * server.
Variable utcoffset : Z.

Local Abbreviation edit_loop := (EditTasks_loop server send utcoffset).
Local Abbreviation add_loop := (AddTasks_loop server send utcoffset).
Local Abbreviation delete_loop := (DeleteTasks_loop server send).

Lemma EditTasks_loop_step fuel token taskList limit start w chunk
    response s' j (failed : bool) :
  DumpTaskList utcoffset (slice taskList start limit) = Ret chunk ->
  send token (mkRequest POST editTasksUrl {[ "tasks" := Dumps (JList chunk) ]})
    (remote w) = (inr response, s') ->
  raise_for_status response = Ret tt ->
  body response = Some j ->
  py_in "errorCode" j = Ret failed ->
  edit_loop (S fuel) (OAuth2Session token) taskList limit start w
  = let w1 := answered w s' (post editTasksUrl chunk) in
    if failed then
      match py_getitem j "errorCode" with
      | Ret errorCode => (Exc (raise_ToodledoError errorCode), w1)
      | Exc e => (Exc e, w1)
      | Diverge => (Diverge, w1)
      end
    else if bool_decide (length (slice taskList start limit) < limit)%nat
         then (Ret tt, w1)
         else edit_loop fuel (OAuth2Session token) taskList limit
                (start + limit) w1.
Proof.
  intros Hdump Hsend Hstatus Hbody Hin.
  cbn [EditTasks_loop].
  unfold bind at 1. unfold lift at 1. rewrite Hdump.
  unfold bind at 1. unfold session_post, perform. rewrite Hsend.
  unfold bind at 1. unfold lift at 1. rewrite Hstatus.
  unfold bind at 1. unfold lift at 1, json_of. rewrite Hbody.
  unfold bind at 1. unfold lift at 1. rewrite Hin.
  destruct failed.
  - unfold bind, lift, raise. cbv zeta. unfold answered, post.
    destruct (py_getitem j "errorCode"); reflexivity.
  - cbv zeta. now destruct (bool_decide _).
Qed.

Lemma AddTasks_loop_step fuel token taskList limit start w chunk
    response s' j (failed : bool) :
  DumpTaskList utcoffset (slice taskList start limit) = Ret chunk ->
  send token (mkRequest POST addTasksUrl {[ "tasks" := Dumps (JList chunk) ]})
    (remote w) = (inr response, s') ->
  raise_for_status response = Ret tt ->
  body response = Some j ->
  py_in "errorCode" j = Ret failed ->
  add_loop (S fuel) (OAuth2Session token) taskList limit start w
  = let w1 := answered w s' (post addTasksUrl chunk) in
    if failed then (Exc (NameError "tasks"), w1)
    else if bool_decide (length (slice taskList start limit) < limit)%nat
         then (Ret tt, w1)
         else add_loop fuel (OAuth2Session token) taskList limit
                (start + limit) w1.
Proof.
  intros Hdump Hsend Hstatus Hbody Hin.
  cbn [AddTasks_loop].
  unfold bind at 1. unfold lift at 1. rewrite Hdump.
  unfold bind at 1. unfold session_post, perform. rewrite Hsend.
  unfold bind at 1. unfold lift at 1. rewrite Hstatus.
  unfold bind at 1. unfold lift at 1, json_of. rewrite Hbody.
  unfold bind at 1. unfold lift at 1. rewrite Hin.
  destruct failed.
  - reflexivity.
  - cbv zeta. now destruct (bool_decide _).
Qed.

Lemma DeleteTasks_loop_step fuel token taskIdList limit start w
    response s' j (failed : bool) :
  send token
    (mkRequest POST deleteTasksUrl
       {[ "tasks" := Dumps (JList (slice taskIdList start limit)) ]})
    (remote w) = (inr response, s') ->
  raise_for_status response = Ret tt ->
  body response = Some j ->
  py_in "errorCode" j = Ret failed ->
  delete_loop (S fuel) (OAuth2Session token) taskIdList limit start w
  = let w1 :=
      answered w s' (post deleteTasksUrl (slice taskIdList start limit)) in
    if failed then (Exc (NameError "tasks"), w1)
    else if bool_decide (length (slice taskIdList start limit) < limit)%nat
         then (Ret tt, w1)
         else delete_loop fuel (OAuth2Session token) taskIdList limit
                (start + limit) w1.
Proof.
  intros Hsend Hstatus Hbody Hin.
  cbn [DeleteTasks_loop].
  unfold bind at 1. unfold session_post, perform. rewrite Hsend.
  unfold bind at 1. unfold lift at 1. rewrite Hstatus.
  unfold bind at 1. unfold lift at 1, json_of. rewrite Hbody.
  unfold bind at 1. unfold lift at 1. rewrite Hin.
  destruct failed.
  - reflexivity.
  - cbv zeta. now destruct (bool_decide _).
Qed.

Lemma batches_from_last {A} limit (l : list A) :
  batches_from limit l (length l / limit)
  = [slice l (length l / limit * limit) limit].
Proof.
  unfold batches_from.
  replace (S (length l / limit) - length l / limit)%nat with 1%nat by lia.
  reflexivity.
Qed.

Lemma batches_from_next {A} limit (l : list A) k :
  (k < length l / limit)%nat ->
  batches_from limit l k
  = slice l (k * limit) limit :: batches_from limit l (S k).
Proof.
  intros Hk. unfold batches_from.
  replace (S (length l / limit) - k)%nat
    with (S (S (length l / limit) - S k)) by lia.
  reflexivity.
Qed.

Lemma batches_from_0 {A} limit (l : list A) :
  l <> [] -> batches limit l = batches_from limit l 0.
Proof.
  intros Hl. unfold batches, batches_from. destruct l; [contradiction|].
  now rewrite Nat.sub_0_r.
Qed.

(** Which batch is the short one. *)
Lemma short_batch_is_last {A} (l : list A) limit k :
  (0 < limit)%nat -> (k <= length l / limit)%nat ->
  (length (slice l (k * limit) limit) < limit)%nat
  <-> k = (length l / limit)%nat.
Proof.
  intros Hl Hk. split.
  - intros Hshort. destruct (decide (k = length l / limit)%nat) as [|Hne];
      [assumption|].
    rewrite slice_full in Hshort by lia. lia.
  - intros ->. rewrite slice_short by assumption.
    now apply Nat.mod_upper_bound, Nat.neq_0_lt_0.
Qed.

Local Abbreviation get_loop := (GetTasks_loop server send).

Lemma GetTasks_loop_step fuel token allTasks limit start ps w
    response s' j (failed : bool) :
  send token (page_request ps limit start) (remote w) = (inr response, s') ->
  raise_for_status response = Ret tt ->
  body response = Some j ->
  py_in "errorCode" j = Ret failed ->
  get_loop (S fuel) (OAuth2Session token) allTasks limit start (ps, w)
  = let st := (page_params ps limit start,
               answered w s' (Sent (page_request ps limit start))) in
    if failed then
      match py_getitem j "errorCode" with
      | Ret errorCode => (Exc (raise_ToodledoError errorCode), st)
      | Exc e => (Exc e, st)
      | Diverge => (Diverge, st)
      end
    else
      match rest_of j with
      | Ret page =>
          if bool_decide (length page < limit)%nat
          then (Ret (allTasks ++ page)%list, st)
          else get_loop fuel (OAuth2Session token) (allTasks ++ page)%list
                 limit (start + limit) st
      | Exc e => (Exc e, st)
      | Diverge => (Diverge, st)
      end.
Proof.
  intros Hsend Hstatus Hbody Hin.
  cbn [GetTasks_loop].
  unfold bind at 1. unfold setitem at 1. cbn [fst snd].
  unfold bind at 1. unfold setitem at 1. cbn [fst snd].
  unfold bind at 1. unfold the_params at 1. cbn [fst snd].
  unfold bind at 1. unfold on_snd, session_get_params, perform. cbn [fst snd].
  fold (page_params ps limit start). fold (page_request ps limit start).
  rewrite Hsend.
  unfold bind at 1. unfold lift at 1. rewrite Hstatus.
  unfold bind at 1. unfold lift at 1, json_of. rewrite Hbody.
  unfold bind at 1. unfold lift at 1. rewrite Hin.
  cbv zeta. unfold answered. destruct failed.
  - unfold bind, lift, raise.
    destruct (py_getitem j "errorCode"); reflexivity.
  - unfold bind at 1. unfold lift at 1.
    destruct (rest_of j); try reflexivity.
    now destruct (bool_decide _).
Qed.

(** C7: when the answer carries an error marker, [GetTasks] and
    [EditTasks] raise [ToodledoError] with the code and its message from
    the table, but [AddTasks] and [DeleteTasks] raise [NameError]: their
    error branch reads [tasks], which they never assign.  Code 601 has the
    message "Your task must have a title."; a code outside the table has
    "Unknown error". *)
Theorem error_marker_NameError_in_add_and_delete (token : json)
    (taskList : list Task) (chunk ids : list json) (errorCode : json)
    (ps : gmap string json) (fuel : nat) (w : World server) :
  answers_error send errorCode ->
  taskList <> [] ->
  DumpTaskList utcoffset (slice taskList 0 50) = Ret chunk ->
  omap getattr_id taskList = Ret ids ->
  fst (AddTasks server send utcoffset (OAuth2Session token) taskList w)
  = Exc (NameError "tasks")
  /\ fst (DeleteTasks server send (OAuth2Session token) taskList w)
    = Exc (NameError "tasks")
  /\ fst (EditTasks server send utcoffset (OAuth2Session token) taskList w)
    = Exc (raise_ToodledoError errorCode)
  /\ fst (GetTasks server send utcoffset (S fuel) (OAuth2Session token) (ps, w))
    = Exc (raise_ToodledoError errorCode)
  /\ raise_ToodledoError (JNum 601)
    = ToodledoError "Your task must have a title." (JNum 601)
  /\ (forall z, errorCodeToMessage !! z = None ->
        raise_ToodledoError (JNum z) = ToodledoError "Unknown error" (JNum z)).
Proof.
  intros Hrefuse Hne Hdump Hids.
  assert (Hnz : bool_decide (length taskList = 0%nat) = false).
  { apply bool_decide_eq_false_2. destruct taskList; simpl; congruence. }
  repeat split.
  - unfold AddTasks. rewrite Hnz.
    destruct (Hrefuse token
                (mkRequest POST addTasksUrl {[ "tasks" := Dumps (JList chunk) ]})
                (remote w))
      as (response & s' & j & Hsend & Hstatus & Hbody & Hin & _).
    now rewrite (AddTasks_loop_step _ _ _ _ _ _ _ _ _ _ _
                   Hdump Hsend Hstatus Hbody Hin).
  - unfold DeleteTasks. rewrite Hnz.
    unfold bind at 1. unfold lift at 1. rewrite Hids.
    destruct (Hrefuse token
                (mkRequest POST deleteTasksUrl
                   {[ "tasks" := Dumps (JList (slice ids 0 50)) ]})
                (remote w))
      as (response & s' & j & Hsend & Hstatus & Hbody & Hin & _).
    now rewrite (DeleteTasks_loop_step _ _ _ _ _ _ _ _ _ _
                   Hsend Hstatus Hbody Hin).
  - unfold EditTasks. rewrite Hnz.
    destruct (Hrefuse token
                (mkRequest POST editTasksUrl {[ "tasks" := Dumps (JList chunk) ]})
                (remote w))
      as (response & s' & j & Hsend & Hstatus & Hbody & Hin & Hcode).
    rewrite (EditTasks_loop_step _ _ _ _ _ _ _ _ _ _ _
               Hdump Hsend Hstatus Hbody Hin).
    cbv zeta. now rewrite Hcode.
  - unfold GetTasks. unfold bind at 1.
    destruct (Hrefuse token (page_request ps 1000 0) (remote w))
      as (response & s' & j & Hsend & Hstatus & Hbody & Hin & Hcode).
    rewrite (GetTasks_loop_step _ _ _ _ _ _ _ _ _ _ _
               Hsend Hstatus Hbody Hin).
    cbv zeta. now rewrite Hcode.
  - intros z Hz. unfold raise_ToodledoError, errorMessage_of.
    now rewrite Hz.
Qed.

Lemma page_params_lookup ps limit start k :
  page_params ps limit start !! k
  = if decide (k = "num") then Some (JNum (Z.of_nat limit))
    else if decide (k = "start") then Some (JNum (Z.of_nat start))
         else ps !! k.
Proof.
  unfold page_params. repeat case_decide; subst.
  - now rewrite lookup_insert_eq.
  - rewrite lookup_insert_ne by congruence. now rewrite lookup_insert_eq.
  - now rewrite !lookup_insert_ne by congruence.
Qed.

Lemma page_params_again ps limit a b :
  page_params (page_params ps limit a) limit b = page_params ps limit b.
Proof.
  apply map_eq. intros k. rewrite !page_params_lookup.
  now repeat case_decide.
Qed.

Lemma page_request_again ps limit a b :
  page_request (page_params ps limit a) limit b = page_request ps limit b.
Proof. unfold page_request. now rewrite page_params_again. Qed.

Lemma rounds_S ps limit start n :
  rounds ps limit start (S n)
  = Sent (page_request ps limit start)
    :: rounds (page_params ps limit start) limit (start + limit) n.
Proof.
  unfold rounds. simpl seq. simpl map. rewrite Nat.add_0_r. f_equal.
  rewrite <- seq_shift, map_map. apply map_ext. intros i.
  rewrite page_request_again. do 2 f_equal. lia.
Qed.

Lemma params_after_S ps limit start n :
  params_after (page_params ps limit start) limit (start + limit) n
  = params_after ps limit start (S n).
Proof.
  destruct n as [|m]; simpl.
  - now rewrite Nat.add_0_r.
  - rewrite page_params_again. f_equal. lia.
Qed.

Lemma GetTasks_loop_frame fuel token :
  forall allTasks limit start ps w,
  exists n s',
    (n <= fuel)%nat /\ (0 < fuel -> 0 < n)%nat
    /\ snd (get_loop fuel (OAuth2Session token) allTasks limit start (ps, w))
       = (params_after ps limit start n,
          mkWorld s' (log w ++ rounds ps limit start n)).
Proof.
  induction fuel as [|fuel IH]; intros allTasks limit start ps w.
  - exists 0%nat, (remote w). split; [lia|]. split; [lia|]. simpl.
    unfold rounds. simpl. rewrite app_nil_r. now destruct w.
  - assert (Hone : forall (o : outcome (list json)) s',
               exists n s'', (n <= S fuel)%nat /\ (0 < S fuel -> 0 < n)%nat
                 /\ snd (o, (page_params ps limit start,
                             answered w s' (Sent (page_request ps limit start))))
                    = (params_after ps limit start n,
                       mkWorld s'' (log w ++ rounds ps limit start n))).
    { intros o s'. exists 1%nat, s'. split; [lia|]. split; [lia|]. simpl.
      unfold rounds. simpl. now rewrite !Nat.add_0_r. }
    cbn [GetTasks_loop].
    unfold bind at 1. unfold setitem at 1. cbn [fst snd].
    unfold bind at 1. unfold setitem at 1. cbn [fst snd].
    unfold bind at 1. unfold the_params at 1. cbn [fst snd].
    unfold bind at 1. unfold on_snd, session_get_params, perform.
    cbn [fst snd].
    fold (page_params ps limit start). fold (page_request ps limit start).
    destruct (send token (page_request ps limit start) (remote w))
      as [[e|response] s']; [apply (Hone (Exc e))|].
    unfold bind at 1. unfold lift at 1.
    destruct (raise_for_status response) as [[]|e|];
      [|apply (Hone (Exc e))|apply (Hone Diverge)].
    unfold bind at 1. unfold lift at 1.
    destruct (json_of response) as [j|e|];
      [|apply (Hone (Exc e))|apply (Hone Diverge)].
    unfold bind at 1. unfold lift at 1.
    destruct (py_in "errorCode" j) as [failed|e|];
      [|apply (Hone (Exc e))|apply (Hone Diverge)].
    destruct failed.
    + unfold bind at 1. unfold lift at 1.
      destruct (py_getitem j "errorCode") as [c|e|];
        [apply (Hone (Exc (raise_ToodledoError c)))
        |apply (Hone (Exc e))|apply (Hone Diverge)].
    + unfold bind at 1. unfold lift at 1.
      destruct (rest_of j) as [page|e|];
        [|apply (Hone (Exc e))|apply (Hone Diverge)].
      case_bool_decide; [apply (Hone (Ret _))|].
      destruct (IH (allTasks ++ page)%list limit (start + limit)%nat
                  (page_params ps limit start)
                  (mkWorld s' (log w ++ [Sent (page_request ps limit start)])))
        as (n & s'' & Hn & _ & Hsnd).
      exists (S n), s''. split; [lia|]. split; [lia|].
      rewrite Hsnd. cbn [log]. rewrite params_after_S, rounds_S.
      now rewrite <- app_assoc.
Qed.

Lemma rounds_lookup ps limit start n i e :
  rounds ps limit start n !! i = Some e ->
  e = Sent (page_request ps limit (start + i * limit)) /\ (i < n)%nat.
Proof.
  unfold rounds. rewrite list_lookup_fmap. intros H.
  destruct (seq 0 n !! i) as [i'|] eqn:E; [|discriminate].
  apply lookup_seq in E as [-> Hi]. simpl in H. now inversion H.
Qed.

(** C10, as the code has it: every round writes ["start"] and ["num"] into
    the mapping the caller passed and sends the mapping as it then is.  So
    the caller's mapping comes back with those two keys set, to the last
    offset and to 1000, and with every other key as it was; request [i]
    carries offset [1000 i], 1000 for ["num"], and every other key of the
    caller with its value. *)
Theorem GetTasks_sets_start_and_num (fuel : nat) (token : json)
    (ps ps' : gmap string json) (w w' : World server)
    (o : outcome (list (loaded Task Task))) :
  GetTasks server send utcoffset fuel (OAuth2Session token) (ps, w)
  = (o, (ps', w')) ->
  exists n,
    (n <= fuel)%nat /\ (0 < fuel -> 0 < n)%nat
    /\ log w' = (log w ++ rounds ps 1000 0 n)%list
    /\ (forall k, k <> "start" -> k <> "num" -> ps' !! k = ps !! k)
    /\ (0 < n ->
        ps' !! "start" = Some (JNum (1000 * (Z.of_nat n - 1)))
        /\ ps' !! "num" = Some (JNum 1000))%nat
    /\ (forall i e, rounds ps 1000 0 n !! i = Some e ->
          exists r, e = Sent r
            /\ verb r = GET /\ url r = getTasksUrl
            /\ params r !! "start"
               = Some (Plain_value (JNum (1000 * Z.of_nat i)))
            /\ params r !! "num" = Some (Plain_value (JNum 1000))
            /\ (forall k, k <> "start" -> k <> "num" ->
                  params r !! k = Plain_value <$> ps !! k)).
Proof.
  intros Hrun.
  destruct (GetTasks_loop_frame fuel token [] 1000%nat 0%nat ps w)
    as (n & s' & Hn & Hpos & Hsnd).
  assert (Hstate : (ps', w') = (params_after ps 1000 0 n,
                                mkWorld s' (log w ++ rounds ps 1000 0 n))).
  { rewrite <- Hsnd. unfold GetTasks, bind in Hrun.
    destruct (get_loop fuel (OAuth2Session token) [] 1000%nat 0%nat (ps, w))
      as [[allTasks|e|] st]; simpl; unfold lift in Hrun; congruence. }
  inversion Hstate; subst ps' w'. clear Hstate.
  exists n. repeat split; try assumption.
  - intros k Hstart Hnum. destruct n as [|m]; [reflexivity|]. simpl.
    rewrite page_params_lookup. now repeat case_decide.
  - destruct n as [|m]; [lia|]. simpl. rewrite page_params_lookup.
    repeat case_decide; try congruence. do 2 f_equal. lia.
  - destruct n as [|m]; [lia|]. simpl. rewrite page_params_lookup.
    now repeat case_decide.
  - intros i e Hi. apply rounds_lookup in Hi as [-> Hi].
    eexists. split; [reflexivity|]. simpl.
    rewrite !lookup_fmap, !page_params_lookup.
    repeat split; try reflexivity.
    + repeat case_decide; try congruence. simpl. do 3 f_equal. lia.
    + intros k Hstart Hnum. rewrite lookup_fmap, page_params_lookup.
      now repeat case_decide.
Qed.

Hypothesis Hok : answers_ok send.

Ltac answer token request w :=
  let response := fresh "response" in
  let s' := fresh "s'" in
  let j := fresh "j" in
  destruct (Hok token request (remote w))
    as (response & s' & j & Hsend & Hstatus & Hbody & Hin).

Ltac finish_round IH k :=
  let Hshort := fresh "Hshort" in
  let w' := fresh "w'" in
  let Hrun := fresh "Hrun" in
  let Hlog := fresh "Hlog" in
  cbv zeta; case_bool_decide as Hshort;
  [ apply short_batch_is_last in Hshort; [|assumption..];
    subst k; eexists; split; [reflexivity|];
    rewrite batches_from_last; reflexivity
  | rewrite short_batch_is_last in Hshort by assumption;
    match goal with
    | |- context [(k * ?limit + ?limit)%nat] =>
        replace (k * limit + limit)%nat with (S k * limit)%nat by lia
    end;
    edestruct (IH (S k)) as (w' & Hrun & Hlog); [lia | lia |];
    eexists; split; [exact Hrun|];
    rewrite Hlog; unfold answered; cbn [log];
    rewrite (batches_from_next _ _ k) by lia;
    rewrite <- app_assoc; reflexivity ].

Lemma EditTasks_loop_ok token taskList wire limit :
  (0 < limit)%nat ->
  DumpTaskList utcoffset taskList = Ret wire ->
  forall fuel k w,
    (k <= length wire / limit)%nat ->
    (length wire / limit - k < fuel)%nat ->
    exists w',
      edit_loop fuel (OAuth2Session token) taskList limit (k * limit) w
      = (Ret tt, w')
      /\ log w' = (log w
                   ++ map (post editTasksUrl) (batches_from limit wire k))%list.
Proof.
  intros Hl Hdump.
  pose proof (omap_length _ _ _ Hdump) as Hlen.
  induction fuel as [|fuel IH]; intros k w Hk Hfuel; [lia|].
  pose proof (omap_slice _ _ _ (k * limit) limit Hdump) as Hchunk.
  answer token (mkRequest POST editTasksUrl
                  {[ "tasks" := Dumps (JList (slice wire (k * limit) limit)) ]}) w.
  rewrite (EditTasks_loop_step _ _ _ _ _ _ _ _ _ _ _
             Hchunk Hsend Hstatus Hbody Hin).
  replace (length (slice taskList (k * limit) limit))
    with (length (slice wire (k * limit) limit))
    by (rewrite !slice_length; lia).
  finish_round IH k.
Qed.

Lemma AddTasks_loop_ok token taskList wire limit :
  (0 < limit)%nat ->
  DumpTaskList utcoffset taskList = Ret wire ->
  forall fuel k w,
    (k <= length wire / limit)%nat ->
    (length wire / limit - k < fuel)%nat ->
    exists w',
      add_loop fuel (OAuth2Session token) taskList limit (k * limit) w
      = (Ret tt, w')
      /\ log w' = (log w
                   ++ map (post addTasksUrl) (batches_from limit wire k))%list.
Proof.
  intros Hl Hdump.
  pose proof (omap_length _ _ _ Hdump) as Hlen.
  induction fuel as [|fuel IH]; intros k w Hk Hfuel; [lia|].
  pose proof (omap_slice _ _ _ (k * limit) limit Hdump) as Hchunk.
  answer token (mkRequest POST addTasksUrl
                  {[ "tasks" := Dumps (JList (slice wire (k * limit) limit)) ]}) w.
  rewrite (AddTasks_loop_step _ _ _ _ _ _ _ _ _ _ _
             Hchunk Hsend Hstatus Hbody Hin).
  replace (length (slice taskList (k * limit) limit))
    with (length (slice wire (k * limit) limit))
    by (rewrite !slice_length; lia).
  finish_round IH k.
Qed.

Lemma DeleteTasks_loop_ok token taskIdList limit :
  (0 < limit)%nat ->
  forall fuel k w,
    (k <= length taskIdList / limit)%nat ->
    (length taskIdList / limit - k < fuel)%nat ->
    exists w',
      delete_loop fuel (OAuth2Session token) taskIdList limit (k * limit) w
      = (Ret tt, w')
      /\ log w' = (log w ++ map (post deleteTasksUrl)
                              (batches_from limit taskIdList k))%list.
Proof.
  intros Hl.
  induction fuel as [|fuel IH]; intros k w Hk Hfuel; [lia|].
  answer token (mkRequest POST deleteTasksUrl
                  {[ "tasks" := Dumps (JList (slice taskIdList (k * limit) limit)) ]}) w.
  rewrite (DeleteTasks_loop_step _ _ _ _ _ _ _ _ _ _
             Hsend Hstatus Hbody Hin).
  finish_round IH k.
Qed.

Lemma batches_as_sent {A} (l : list A) :
  l <> [] ->
  (0 <= length l / 50)%nat /\ (length l / 50 - 0 < S (length l))%nat
  /\ batches_from 50 l 0 = batches 50 l.
Proof.
  intros Hl. split; [lia|]. split.
  - pose proof (Nat.Div0.div_le_upper_bound (length l) 50 (length l)). lia.
  - symmetry. now apply batches_from_0.
Qed.

Lemma not_empty_length {A} (l : list A) :
  l <> [] -> bool_decide (length l = 0%nat) = false.
Proof.
  intros Hl. apply bool_decide_eq_false_2. destruct l; simpl; congruence.
Qed.

Lemma AddTasks_sends_batches token taskList wire w :
  DumpTaskList utcoffset taskList = Ret wire ->
  exists w',
    AddTasks server send utcoffset (OAuth2Session token) taskList w
    = (Ret tt, w')
    /\ log w' = (log w ++ map (post addTasksUrl) (batches 50 wire))%list.
Proof.
  intros Hdump. pose proof (omap_length _ _ _ Hdump) as Hlen.
  destruct (decide (taskList = [])) as [->|Hne].
  { simpl in Hdump. inversion Hdump; subst. exists w.
    split; [reflexivity|]. simpl. now rewrite app_nil_r. }
  assert (Hw : wire <> [])
    by (destruct wire, taskList; simpl in *; congruence).
  destruct (batches_as_sent wire Hw) as (Hk & Hfuel & Hb).
  unfold AddTasks. rewrite not_empty_length by assumption.
  rewrite <- Hlen, <- Hb.
  apply (AddTasks_loop_ok token taskList wire 50 ltac:(lia) Hdump
           (S (length wire)) 0%nat w Hk Hfuel).
Qed.

Lemma EditTasks_sends_batches token taskList wire w :
  DumpTaskList utcoffset taskList = Ret wire ->
  exists w',
    EditTasks server send utcoffset (OAuth2Session token) taskList w
    = (Ret tt, w')
    /\ log w' = (log w ++ map (post editTasksUrl) (batches 50 wire))%list.
Proof.
  intros Hdump. pose proof (omap_length _ _ _ Hdump) as Hlen.
  destruct (decide (taskList = [])) as [->|Hne].
  { simpl in Hdump. inversion Hdump; subst. exists w.
    split; [reflexivity|]. simpl. now rewrite app_nil_r. }
  assert (Hw : wire <> [])
    by (destruct wire, taskList; simpl in *; congruence).
  destruct (batches_as_sent wire Hw) as (Hk & Hfuel & Hb).
  unfold EditTasks. rewrite not_empty_length by assumption.
  rewrite <- Hlen, <- Hb.
  apply (EditTasks_loop_ok token taskList wire 50 ltac:(lia) Hdump
           (S (length wire)) 0%nat w Hk Hfuel).
Qed.

Lemma DeleteTasks_sends_batches token taskList ids w :
  omap getattr_id taskList = Ret ids ->
  exists w',
    DeleteTasks server send (OAuth2Session token) taskList w = (Ret tt, w')
    /\ log w' = (log w ++ map (post deleteTasksUrl) (batches 50 ids))%list.
Proof.
  intros Hids. pose proof (omap_length _ _ _ Hids) as Hlen.
  destruct (decide (taskList = [])) as [->|Hne].
  { simpl in Hids. inversion Hids; subst. exists w.
    split; [reflexivity|]. simpl. now rewrite app_nil_r. }
  assert (Hw : ids <> [])
    by (destruct ids, taskList; simpl in *; congruence).
  destruct (batches_as_sent ids Hw) as (Hk & Hfuel & Hb).
  unfold DeleteTasks. rewrite not_empty_length by assumption.
  unfold bind at 1. unfold lift at 1. rewrite Hids. rewrite <- Hb.
  apply (DeleteTasks_loop_ok token ids 50 ltac:(lia)
           (S (length ids)) 0%nat w Hk Hfuel).
Qed.

(** C1: with a service that answers every request with a success, the
    three batch operations send the batches of the list, in order: batch
    [k] is the slice of 50 items from position [50 k], its size is the
    smaller of 50 and what remains, and the batches end with the first
    short one.  No request for an empty list; sizes 50, 50, 20 for 120
    records; sizes 50, 50, 0 for 100 records. *)
Theorem batch_requests_are_chunks (token : json) (taskList : list Task)
    (w : World server) :
  (taskList = [] ->
     AddTasks server send utcoffset (OAuth2Session token) taskList w
     = (Ret tt, w)
     /\ EditTasks server send utcoffset (OAuth2Session token) taskList w
       = (Ret tt, w)
     /\ DeleteTasks server send (OAuth2Session token) taskList w
       = (Ret tt, w))
  /\ (forall wire, DumpTaskList utcoffset taskList = Ret wire ->
        (exists w',
           AddTasks server send utcoffset (OAuth2Session token) taskList w
           = (Ret tt, w')
           /\ log w' = (log w ++ map (post addTasksUrl) (batches 50 wire))%list)
        /\ (exists w',
              EditTasks server send utcoffset (OAuth2Session token) taskList w
              = (Ret tt, w')
              /\ log w'
                = (log w ++ map (post editTasksUrl) (batches 50 wire))%list))
  /\ (forall ids, omap getattr_id taskList = Ret ids ->
        exists w',
          DeleteTasks server send (OAuth2Session token) taskList w
          = (Ret tt, w')
          /\ log w' = (log w ++ map (post deleteTasksUrl) (batches 50 ids))%list)
  /\ (forall (A : Type) (l : list A),
        concat (batches 50 l) = l
        /\ (forall k c, batches 50 l !! k = Some c ->
              c = slice l (k * 50) 50
              /\ length c = Nat.min 50 (length l - k * 50))
        /\ (length l = 0%nat -> batches 50 l = [])
        /\ (length l = 120%nat ->
              map length (batches 50 l) = [50; 50; 20]%nat)
        /\ (length l = 100%nat ->
              map length (batches 50 l) = [50; 50; 0]%nat)).
Proof.
  split; [|split; [|split]].
  - intros ->. repeat split; reflexivity.
  - intros wire Hdump. split.
    + now apply AddTasks_sends_batches.
    + now apply EditTasks_sends_batches.
  - intros ids Hids. now apply DeleteTasks_sends_batches.
  - intros A l. split; [apply concat_batches; lia|].
    split; [apply batches_lookup|].
    split; [|split].
    + intros Hl. destruct l; [reflexivity|discriminate].
    + intros Hl. rewrite batches_lengths; [|lia|intros ->; discriminate].
      rewrite Hl. reflexivity.
    + intros Hl. rewrite batches_lengths; [|lia|intros ->; discriminate].
      rewrite Hl. reflexivity.
Qed.

Lemma dump_keeps_title task s :
  title task = Val s -> tags task <> IsNone ->
  exists kv, TaskSchema.dump utcoffset task = Ret (JDict kv)
             /\ assoc "title" kv = Some (JStr s).
Proof.
  destruct task as [i ti tg sd dd md cd]. simpl. intros -> Htags.
  unfold TaskSchema.dump. simpl.
  destruct tg as [| |tg]; [|contradiction|];
    destruct i, sd, dd, md, cd; simpl; eexists; (split; [reflexivity|]);
    reflexivity.
Qed.

Lemma dump_total task :
  tags task <> IsNone -> exists j, TaskSchema.dump utcoffset task = Ret j.
Proof.
  destruct task as [i ti tg sd dd md cd]. simpl. intros Htags.
  unfold TaskSchema.dump. simpl.
  destruct tg as [| |tg]; [|contradiction|];
    destruct i, ti, sd, dd, md, cd; simpl; eexists; reflexivity.
Qed.

Lemma DumpTaskList_total taskList :
  Forall (fun t => tags t <> IsNone) taskList ->
  exists wire, DumpTaskList utcoffset taskList = Ret wire.
Proof.
  induction 1 as [|t l Ht _ [wire IH]]; [now exists []|].
  destruct (dump_total t Ht) as [j Hj].
  exists (j :: wire). unfold DumpTaskList in *. simpl. now rewrite Hj, IH.
Qed.

Lemma DumpTaskList_lookup taskList wire i t :
  DumpTaskList utcoffset taskList = Ret wire ->
  taskList !! i = Some t ->
  exists j, wire !! i = Some j /\ TaskSchema.dump utcoffset t = Ret j.
Proof.
  unfold DumpTaskList. revert wire i.
  induction taskList as [|x l IH]; intros wire i H Hi; [discriminate|].
  simpl in H. destruct (TaskSchema.dump utcoffset x) as [j| |] eqn:Ej;
    try discriminate.
  simpl in H. destruct (omap (TaskSchema.dump utcoffset) l) as [js| |] eqn:El;
    try discriminate.
  simpl in H. inversion H; subst.
  destruct i as [|i]; simpl in *.
  - inversion Hi; subst. now exists j.
  - now apply (IH js i).
Qed.

Lemma py_in_not_Diverge key obj : py_in key obj <> Diverge.
Proof. destruct obj; discriminate. Qed.

Lemma py_getitem_not_Diverge obj key : py_getitem obj key <> Diverge.
Proof.
  destruct obj; try discriminate. simpl. destruct (assoc key kv); discriminate.
Qed.

Lemma omap_not_Diverge {A B} (f : A -> outcome B) xs :
  (forall x, f x <> Diverge) -> omap f xs <> Diverge.
Proof.
  intros Hf. induction xs as [|x xs IH]; simpl; [discriminate|].
  specialize (Hf x). destruct (f x); simpl; try congruence.
  destruct (omap f xs); simpl; congruence.
Qed.

Lemma dump_not_Diverge task : TaskSchema.dump utcoffset task <> Diverge.
Proof.
  destruct (tags task) eqn:Htags.
  - destruct (dump_total task) as [j Hj]; [congruence|].
    rewrite Hj. discriminate.
  - destruct task as [i ti tg sd dd md cd]. simpl in Htags. subst tg.
    destruct i, ti; discriminate.
  - destruct (dump_total task) as [j Hj]; [congruence|].
    rewrite Hj. discriminate.
Qed.

(** The budget that [EditTasks], [AddTasks] and [DeleteTasks] give their
    loop is never used up, whatever the service answers: the offset passes
    the end of the list first. *)
Lemma EditTasks_loop_ends token taskList limit :
  (0 < limit)%nat ->
  forall fuel k w,
    (k <= length taskList / limit)%nat ->
    (length taskList / limit - k < fuel)%nat ->
    fst (edit_loop fuel (OAuth2Session token) taskList limit (k * limit) w)
    <> Diverge.
Proof.
  intros Hl. induction fuel as [|fuel IH]; intros k w Hk Hfuel; [lia|].
  cbn [EditTasks_loop]. unfold bind at 1. unfold lift at 1.
  pose proof (omap_not_Diverge (TaskSchema.dump utcoffset)
                (slice taskList (k * limit) limit) dump_not_Diverge) as Hd.
  unfold DumpTaskList.
  destruct (omap (TaskSchema.dump utcoffset) (slice taskList (k * limit) limit))
    as [chunk|e|]; [|discriminate|contradiction].
  unfold bind at 1. unfold session_post, perform.
  destruct (send token _ (remote w)) as [[e|response] s']; [discriminate|].
  unfold bind at 1. unfold lift at 1, raise_for_status.
  destruct (_ && _); [discriminate|].
  unfold bind at 1. unfold lift at 1, json_of.
  destruct (body response) as [j|]; [|discriminate].
  unfold bind at 1. unfold lift at 1.
  pose proof (py_in_not_Diverge "errorCode" j) as Hin.
  destruct (py_in "errorCode" j) as [[|]|e|]; [| |discriminate|contradiction].
  - unfold bind, lift, raise.
    pose proof (py_getitem_not_Diverge j "errorCode") as Hget.
    destruct (py_getitem j "errorCode"); [discriminate..|contradiction].
  - case_bool_decide as Hshort; [discriminate|].
    rewrite short_batch_is_last in Hshort by assumption.
    replace (k * limit + limit)%nat with (S k * limit)%nat by lia.
    apply IH; lia.
Qed.

Lemma EditTasks_ends token taskList w :
  fst (EditTasks server send utcoffset (OAuth2Session token) taskList w)
  <> Diverge.
Proof.
  unfold EditTasks. case_bool_decide; [discriminate|].
  apply (EditTasks_loop_ends token taskList 50 ltac:(lia)
           (S (length taskList)) 0%nat w); [lia|].
  pose proof (Nat.Div0.div_le_upper_bound (length taskList) 50 (length taskList)).
  lia.
Qed.

Lemma AddTasks_loop_ends token taskList limit :
  (0 < limit)%nat ->
  forall fuel k w,
    (k <= length taskList / limit)%nat ->
    (length taskList / limit - k < fuel)%nat ->
    fst (add_loop fuel (OAuth2Session token) taskList limit (k * limit) w)
    <> Diverge.
Proof.
  intros Hl. induction fuel as [|fuel IH]; intros k w Hk Hfuel; [lia|].
  cbn [AddTasks_loop]. unfold bind at 1. unfold lift at 1.
  pose proof (omap_not_Diverge (TaskSchema.dump utcoffset)
                (slice taskList (k * limit) limit) dump_not_Diverge) as Hd.
  unfold DumpTaskList.
  destruct (omap (TaskSchema.dump utcoffset) (slice taskList (k * limit) limit))
    as [chunk|e|]; [|discriminate|contradiction].
  unfold bind at 1. unfold session_post, perform.
  destruct (send token _ (remote w)) as [[e|response] s']; [discriminate|].
  unfold bind at 1. unfold lift at 1, raise_for_status.
  destruct (_ && _); [discriminate|].
  unfold bind at 1. unfold lift at 1, json_of.
  destruct (body response) as [j|]; [|discriminate].
  unfold bind at 1. unfold lift at 1.
  pose proof (py_in_not_Diverge "errorCode" j) as Hin.
  destruct (py_in "errorCode" j) as [[|]|e|];
    [discriminate| |discriminate|contradiction].
  case_bool_decide as Hshort; [discriminate|].
  rewrite short_batch_is_last in Hshort by assumption.
  replace (k * limit + limit)%nat with (S k * limit)%nat by lia.
  apply IH; lia.
Qed.

Lemma AddTasks_ends token taskList w :
  fst (AddTasks server send utcoffset (OAuth2Session token) taskList w)
  <> Diverge.
Proof.
  unfold AddTasks. case_bool_decide; [discriminate|].
  apply (AddTasks_loop_ends token taskList 50 ltac:(lia)
           (S (length taskList)) 0%nat w); [lia|].
  pose proof (Nat.Div0.div_le_upper_bound (length taskList) 50 (length taskList)).
  lia.
Qed.

Lemma DeleteTasks_loop_ends token taskIdList limit :
  (0 < limit)%nat ->
  forall fuel k w,
    (k <= length taskIdList / limit)%nat ->
    (length taskIdList / limit - k < fuel)%nat ->
    fst (delete_loop fuel (OAuth2Session token) taskIdList limit (k * limit) w)
    <> Diverge.
Proof.
  intros Hl. induction fuel as [|fuel IH]; intros k w Hk Hfuel; [lia|].
  cbn [DeleteTasks_loop].
  unfold bind at 1. unfold session_post, perform.
  destruct (send token _ (remote w)) as [[e|response] s']; [discriminate|].
  unfold bind at 1. unfold lift at 1, raise_for_status.
  destruct (_ && _); [discriminate|].
  unfold bind at 1. unfold lift at 1, json_of.
  destruct (body response) as [j|]; [|discriminate].
  unfold bind at 1. unfold lift at 1.
  pose proof (py_in_not_Diverge "errorCode" j) as Hin.
  destruct (py_in "errorCode" j) as [[|]|e|];
    [discriminate| |discriminate|contradiction].
  case_bool_decide as Hshort; [discriminate|].
  rewrite short_batch_is_last in Hshort by assumption.
  replace (k * limit + limit)%nat with (S k * limit)%nat by lia.
  apply IH; lia.
Qed.

Lemma DeleteTasks_ends token taskList w :
  fst (DeleteTasks server send (OAuth2Session token) taskList w) <> Diverge.
Proof.
  unfold DeleteTasks. case_bool_decide; [discriminate|].
  unfold bind at 1. unfold lift at 1.
  assert (Hids : omap getattr_id taskList <> Diverge).
  { apply omap_not_Diverge. intros t. unfold getattr_id.
    destruct (id_ t); discriminate. }
  destruct (omap getattr_id taskList) as [ids|e|];
    [|discriminate|contradiction].
  apply (DeleteTasks_loop_ends token ids 50 ltac:(lia)
           (S (length ids)) 0%nat w); [lia|].
  pose proof (Nat.Div0.div_le_upper_bound (length ids) 50 (length ids)).
  lia.
Qed.

End TransportProperties.

(** ** The title and its length *)

Section TitleLength.

Context {server : Type}.
Variable send : json -> Request -> server -> (exn + Response) * server.
Variable utcoffset : Z.

Local Abbreviation edit_loop := (EditTasks_loop server send utcoffset).
Local Abbreviation add_loop := (AddTasks_loop server send utcoffset).

Lemma dump_tags_None task :
  tags task = IsNone -> TaskSchema.dump utcoffset task = Exc AssertionError.
Proof.
  destruct task as [i ti tg sd dd md cd]. simpl. intros ->.
  now destruct i, ti.
Qed.

(** A task that [dump] turns into a record has its title in it as it is. *)
Lemma dump_title task j s :
  TaskSchema.dump utcoffset task = Ret j ->
  title task = Val s ->
  exists kv, j = JDict kv /\ assoc "title" kv = Some (JStr s).
Proof.
  intros Hdump Ht.
  destruct (tags task) as [| |tg] eqn:Htags.
  - destruct (dump_keeps_title utcoffset task s Ht) as (kv & Hkv & Ha);
      [congruence|].
    exists kv. split; [congruence|exact Ha].
  - rewrite dump_tags_None in Hdump by assumption. discriminate.
  - destruct (dump_keeps_title utcoffset task s Ht) as (kv & Hkv & Ha);
      [congruence|].
    exists kv. split; [congruence|exact Ha].
Qed.

(** The only exception of the encoding is the failed [assert] of the tags,
    never a [ValidationError]. *)
Lemma dump_raises task e :
  TaskSchema.dump utcoffset task = Exc e -> e = AssertionError.
Proof.
  destruct (tags task) as [| |tg] eqn:Htags.
  - destruct (dump_total utcoffset task) as [j Hj]; congruence.
  - rewrite dump_tags_None by assumption. congruence.
  - destruct (dump_total utcoffset task) as [j Hj]; congruence.
Qed.

Lemma DumpTaskList_raises taskList e :
  DumpTaskList utcoffset taskList = Exc e -> e = AssertionError.
Proof.
  unfold DumpTaskList. induction taskList as [|t l IH]; [discriminate|].
  simpl. destruct (TaskSchema.dump utcoffset t) as [j|e'|] eqn:Et; simpl.
  - destruct (omap (TaskSchema.dump utcoffset) l) as [js|e'|]; simpl;
      try discriminate.
    intros H. apply IH. congruence.
  - intros H. apply dump_raises in Et. congruence.
  - discriminate.
Qed.

(** Whatever the service answers, the loops only add to the log. *)
Lemma AddTasks_loop_log token taskList limit : forall fuel start w,
  exists s' evs,
    snd (add_loop fuel (OAuth2Session token) taskList limit start w)
    = mkWorld s' (log w ++ evs).
Proof.
  induction fuel as [|fuel IH]; intros start w.
  { exists (remote w), []. simpl. rewrite app_nil_r. now destruct w. }
  assert (Hnone : forall o : outcome unit,
             exists s' evs, snd (o, w) = mkWorld s' (log w ++ evs)).
  { intros o. exists (remote w), []. simpl. rewrite app_nil_r. now destruct w. }
  cbn [AddTasks_loop]. unfold bind at 1. unfold lift at 1.
  destruct (DumpTaskList utcoffset (slice taskList start limit))
    as [chunk|e|]; [|apply (Hnone (Exc e))|apply (Hnone Diverge)].
  assert (Hone : forall (o : outcome unit) s',
             exists s'' evs,
               snd (o, answered w s' (post addTasksUrl chunk))
               = mkWorld s'' (log w ++ evs)).
  { intros o s'. now exists s', [post addTasksUrl chunk]. }
  unfold bind at 1. unfold session_post, perform.
  destruct (send token _ (remote w)) as [[e|response] s'];
    [apply (Hone (Exc e))|].
  unfold bind at 1. unfold lift at 1.
  destruct (raise_for_status response) as [[]|e|];
    [|apply (Hone (Exc e))|apply (Hone Diverge)].
  unfold bind at 1. unfold lift at 1.
  destruct (json_of response) as [j|e|];
    [|apply (Hone (Exc e))|apply (Hone Diverge)].
  unfold bind at 1. unfold lift at 1.
  destruct (py_in "errorCode" j) as [[|]|e|];
    [apply (Hone (Exc (NameError "tasks")))
    | |apply (Hone (Exc e))|apply (Hone Diverge)].
  case_bool_decide as Hshort; [apply (Hone (Ret tt))|].
  destruct (IH (start + limit)%nat
              (mkWorld s' (log w ++ [post addTasksUrl chunk])))
    as (s'' & evs & Hsnd).
  exists s'', (post addTasksUrl chunk :: evs).
  etransitivity; [exact Hsnd|]. cbn [log]. now rewrite <- app_assoc.
Qed.

Lemma EditTasks_loop_log token taskList limit : forall fuel start w,
  exists s' evs,
    snd (edit_loop fuel (OAuth2Session token) taskList limit start w)
    = mkWorld s' (log w ++ evs).
Proof.
  induction fuel as [|fuel IH]; intros start w.
  { exists (remote w), []. simpl. rewrite app_nil_r. now destruct w. }
  assert (Hnone : forall o : outcome unit,
             exists s' evs, snd (o, w) = mkWorld s' (log w ++ evs)).
  { intros o. exists (remote w), []. simpl. rewrite app_nil_r. now destruct w. }
  cbn [EditTasks_loop]. unfold bind at 1. unfold lift at 1.
  destruct (DumpTaskList utcoffset (slice taskList start limit))
    as [chunk|e|]; [|apply (Hnone (Exc e))|apply (Hnone Diverge)].
  assert (Hone : forall (o : outcome unit) s',
             exists s'' evs,
               snd (o, answered w s' (post editTasksUrl chunk))
               = mkWorld s'' (log w ++ evs)).
  { intros o s'. now exists s', [post editTasksUrl chunk]. }
  unfold bind at 1. unfold session_post, perform.
  destruct (send token _ (remote w)) as [[e|response] s'];
    [apply (Hone (Exc e))|].
  unfold bind at 1. unfold lift at 1.
  destruct (raise_for_status response) as [[]|e|];
    [|apply (Hone (Exc e))|apply (Hone Diverge)].
  unfold bind at 1. unfold lift at 1.
  destruct (json_of response) as [j|e|];
    [|apply (Hone (Exc e))|apply (Hone Diverge)].
  unfold bind at 1. unfold lift at 1.
  destruct (py_in "errorCode" j) as [[|]|e|];
    [| |apply (Hone (Exc e))|apply (Hone Diverge)].
  - unfold bind, lift, raise.
    destruct (py_getitem j "errorCode") as [c|e|];
      [apply (Hone (Exc (raise_ToodledoError c)))
      |apply (Hone (Exc e))|apply (Hone Diverge)].
  - case_bool_decide as Hshort; [apply (Hone (Ret tt))|].
    destruct (IH (start + limit)%nat
                (mkWorld s' (log w ++ [post editTasksUrl chunk])))
      as (s'' & evs & Hsnd).
    exists s'', (post editTasksUrl chunk :: evs).
    etransitivity; [exact Hsnd|]. cbn [log]. now rewrite <- app_assoc.
Qed.

(** Once the batch is encoded its request is made, whatever comes after. *)
Lemma AddTasks_loop_first token taskList limit fuel start chunk w :
  DumpTaskList utcoffset (slice taskList start limit) = Ret chunk ->
  exists s' rest,
    snd (add_loop (S fuel) (OAuth2Session token) taskList limit start w)
    = mkWorld s' (log w ++ post addTasksUrl chunk :: rest).
Proof.
  intros Hdump.
  assert (Hone : forall (o : outcome unit) s',
             exists s'' rest,
               snd (o, answered w s' (post addTasksUrl chunk))
               = mkWorld s'' (log w ++ post addTasksUrl chunk :: rest)).
  { intros o s'. now exists s', []. }
  cbn [AddTasks_loop]. unfold bind at 1. unfold lift at 1. rewrite Hdump.
  unfold bind at 1. unfold session_post, perform.
  destruct (send token _ (remote w)) as [[e|response] s'];
    [apply (Hone (Exc e))|].
  unfold bind at 1. unfold lift at 1.
  destruct (raise_for_status response) as [[]|e|];
    [|apply (Hone (Exc e))|apply (Hone Diverge)].
  unfold bind at 1. unfold lift at 1.
  destruct (json_of response) as [j|e|];
    [|apply (Hone (Exc e))|apply (Hone Diverge)].
  unfold bind at 1. unfold lift at 1.
  destruct (py_in "errorCode" j) as [[|]|e|];
    [apply (Hone (Exc (NameError "tasks")))
    | |apply (Hone (Exc e))|apply (Hone Diverge)].
  case_bool_decide as Hshort; [apply (Hone (Ret tt))|].
  destruct (AddTasks_loop_log token taskList limit fuel (start + limit)%nat
              (mkWorld s' (log w ++ [post addTasksUrl chunk])))
    as (s'' & evs & Hsnd).
  exists s'', evs.
  etransitivity; [exact Hsnd|]. cbn [log]. now rewrite <- app_assoc.
Qed.

Lemma EditTasks_loop_first token taskList limit fuel start chunk w :
  DumpTaskList utcoffset (slice taskList start limit) = Ret chunk ->
  exists s' rest,
    snd (edit_loop (S fuel) (OAuth2Session token) taskList limit start w)
    = mkWorld s' (log w ++ post editTasksUrl chunk :: rest).
Proof.
  intros Hdump.
  assert (Hone : forall (o : outcome unit) s',
             exists s'' rest,
               snd (o, answered w s' (post editTasksUrl chunk))
               = mkWorld s'' (log w ++ post editTasksUrl chunk :: rest)).
  { intros o s'. now exists s', []. }
  cbn [EditTasks_loop]. unfold bind at 1. unfold lift at 1. rewrite Hdump.
  unfold bind at 1. unfold session_post, perform.
  destruct (send token _ (remote w)) as [[e|response] s'];
    [apply (Hone (Exc e))|].
  unfold bind at 1. unfold lift at 1.
  destruct (raise_for_status response) as [[]|e|];
    [|apply (Hone (Exc e))|apply (Hone Diverge)].
  unfold bind at 1. unfold lift at 1.
  destruct (json_of response) as [j|e|];
    [|apply (Hone (Exc e))|apply (Hone Diverge)].
  unfold bind at 1. unfold lift at 1.
  destruct (py_in "errorCode" j) as [[|]|e|];
    [| |apply (Hone (Exc e))|apply (Hone Diverge)].
  - unfold bind, lift, raise.
    destruct (py_getitem j "errorCode") as [c|e|];
      [apply (Hone (Exc (raise_ToodledoError c)))
      |apply (Hone (Exc e))|apply (Hone Diverge)].
  - case_bool_decide as Hshort; [apply (Hone (Ret tt))|].
    destruct (EditTasks_loop_log token taskList limit fuel (start + limit)%nat
                (mkWorld s' (log w ++ [post editTasksUrl chunk])))
      as (s'' & evs & Hsnd).
    exists s'', evs.
    etransitivity; [exact Hsnd|]. cbn [log]. now rewrite <- app_assoc.
Qed.

(** A [ValidationError] can only come from the session, with a request in
    the log: the encoding that comes before the request raises none. *)
Lemma AddTasks_loop_ValidationError token taskList limit fuel start w field w' :
  add_loop (S fuel) (OAuth2Session token) taskList limit start w
  = (Exc (ValidationError field), w') ->
  log w' <> log w.
Proof.
  intros Hrun.
  destruct (DumpTaskList utcoffset (slice taskList start limit))
    as [chunk|e|] eqn:Hdump.
  - destruct (AddTasks_loop_first token taskList limit fuel start chunk w Hdump)
      as (s' & rest & Hsnd).
    rewrite Hrun in Hsnd. simpl in Hsnd. subst w'. cbn [log].
    intros H. rewrite <- (app_nil_r (log w)) in H at 2.
    apply app_inv_head in H. discriminate.
  - pose proof (DumpTaskList_raises _ _ Hdump). subst e.
    cbn [AddTasks_loop] in Hrun. unfold bind at 1 in Hrun.
    unfold lift at 1 in Hrun. rewrite Hdump in Hrun. discriminate.
  - cbn [AddTasks_loop] in Hrun. unfold bind at 1 in Hrun.
    unfold lift at 1 in Hrun. rewrite Hdump in Hrun. discriminate.
Qed.

Lemma EditTasks_loop_ValidationError token taskList limit fuel start w field w' :
  edit_loop (S fuel) (OAuth2Session token) taskList limit start w
  = (Exc (ValidationError field), w') ->
  log w' <> log w.
Proof.
  intros Hrun.
  destruct (DumpTaskList utcoffset (slice taskList start limit))
    as [chunk|e|] eqn:Hdump.
  - destruct (EditTasks_loop_first token taskList limit fuel start chunk w Hdump)
      as (s' & rest & Hsnd).
    rewrite Hrun in Hsnd. simpl in Hsnd. subst w'. cbn [log].
    intros H. rewrite <- (app_nil_r (log w)) in H at 2.
    apply app_inv_head in H. discriminate.
  - pose proof (DumpTaskList_raises _ _ Hdump). subst e.
    cbn [EditTasks_loop] in Hrun. unfold bind at 1 in Hrun.
    unfold lift at 1 in Hrun. rewrite Hdump in Hrun. discriminate.
  - cbn [EditTasks_loop] in Hrun. unfold bind at 1 in Hrun.
    unfold lift at 1 in Hrun. rewrite Hdump in Hrun. discriminate.
Qed.

(** C9, as the code has it: encoding applies no length check to the title.
    For every task list passed to [AddTasks] or [EditTasks] that contains a
    task whose title is 256 characters long, the operation does not fail
    with a [ValidationError] before a request is issued; and whenever the
    list encodes, that task's wire record carries the title as it is and
    the first request, with the first fifty records at most, is issued. *)
Theorem title_length_unchecked_on_encode (token : json)
    (taskList : list Task) (w : World server)
    (i : nat) (t : Task) (s : string) :
  taskList !! i = Some t ->
  title t = Val s ->
  String.length s = 256%nat ->
  (forall field w',
     AddTasks server send utcoffset (OAuth2Session token) taskList w
     = (Exc (ValidationError field), w') ->
     log w' <> log w)
  /\ (forall field w',
        EditTasks server send utcoffset (OAuth2Session token) taskList w
        = (Exc (ValidationError field), w') ->
        log w' <> log w)
  /\ (forall wire,
        DumpTaskList utcoffset taskList = Ret wire ->
        (exists kv, wire !! i = Some (JDict kv)
                    /\ assoc "title" kv = Some (JStr s))
        /\ (exists s' rest,
              snd (AddTasks server send utcoffset (OAuth2Session token)
                     taskList w)
              = mkWorld s' (log w ++ post addTasksUrl (take 50 wire) :: rest))
        /\ (exists s' rest,
              snd (EditTasks server send utcoffset (OAuth2Session token)
                     taskList w)
              = mkWorld s' (log w ++ post editTasksUrl (take 50 wire) :: rest))).
Proof.
  intros Hi Ht _.
  assert (Hne : taskList <> []) by (intros ->; discriminate).
  split; [|split].
  - intros field w'. unfold AddTasks. rewrite not_empty_length by assumption.
    apply AddTasks_loop_ValidationError.
  - intros field w'. unfold EditTasks. rewrite not_empty_length by assumption.
    apply EditTasks_loop_ValidationError.
  - intros wire Hdump.
    pose proof (omap_slice _ _ _ 0%nat 50%nat Hdump) as Hfirst.
    change (slice wire 0 50) with (take 50 wire) in Hfirst.
    split; [|split].
    + destruct (DumpTaskList_lookup _ _ _ _ _ Hdump Hi) as (j & Hj & Hd).
      destruct (dump_title t j s Hd Ht) as (kv & -> & Hkv).
      now exists kv.
    + unfold AddTasks. rewrite not_empty_length by assumption.
      now apply AddTasks_loop_first.
    + unfold EditTasks. rewrite not_empty_length by assumption.
      now apply EditTasks_loop_first.
Qed.

End TitleLength.

(** ** The paged read *)

Lemma page_request_carries ps limit start :
  verb (page_request ps limit start) = GET
  /\ url (page_request ps limit start) = getTasksUrl
  /\ params (page_request ps limit start) !! "start"
     = Some (Plain_value (JNum (Z.of_nat start)))
  /\ params (page_request ps limit start) !! "num"
     = Some (Plain_value (JNum (Z.of_nat limit))).
Proof.
  repeat split; simpl; rewrite lookup_fmap, page_params_lookup;
    now repeat case_decide.
Qed.

(** One round of [GetTasks] against the playback service, the next answer
    being a page whose records number [limit] or more. *)
Lemma playback_full_page fuel token allTasks limit start ps lg
    marker records more :
  existsb (is_str "errorCode") (marker :: records) = false ->
  (limit <= length records)%nat ->
  GetTasks_loop (list Response) playback (S fuel) (OAuth2Session token)
    allTasks limit start
    (ps, mkWorld (page_response marker records :: more) lg)
  = GetTasks_loop (list Response) playback fuel (OAuth2Session token)
      (allTasks ++ records)%list limit (start + limit)
      (page_params ps limit start,
       mkWorld more (lg ++ [Sent (page_request ps limit start)])).
Proof.
  intros Hmarker Hfull.
  rewrite (GetTasks_loop_step playback fuel token allTasks limit start ps
             (mkWorld (page_response marker records :: more) lg)
             (page_response marker records) more
             (JList (marker :: records)) false
             eq_refl eq_refl eq_refl (f_equal Ret Hmarker)).
  cbv zeta. unfold rest_of, tail_from_1. simpl drop. rewrite !drop_0.
  rewrite bool_decide_eq_false_2 by lia. reflexivity.
Qed.

(** The same with a page of fewer than [limit] records: the last round. *)
Lemma playback_last_page fuel token allTasks limit start ps lg
    marker records more :
  existsb (is_str "errorCode") (marker :: records) = false ->
  (length records < limit)%nat ->
  GetTasks_loop (list Response) playback (S fuel) (OAuth2Session token)
    allTasks limit start
    (ps, mkWorld (page_response marker records :: more) lg)
  = (Ret (allTasks ++ records)%list,
     (page_params ps limit start,
      mkWorld more (lg ++ [Sent (page_request ps limit start)]))).
Proof.
  intros Hmarker Hshort.
  rewrite (GetTasks_loop_step playback fuel token allTasks limit start ps
             (mkWorld (page_response marker records :: more) lg)
             (page_response marker records) more
             (JList (marker :: records)) false
             eq_refl eq_refl eq_refl (f_equal Ret Hmarker)).
  cbv zeta. unfold rest_of, tail_from_1. simpl drop. rewrite !drop_0.
  rewrite bool_decide_eq_true_2 by lia. reflexivity.
Qed.

(** C2: against answers whose task portions number 1000, 1000 and 400,
    [GetTasks] makes three requests, with offsets 0, 1000 and 2000, and
    returns the 2400 records decoded, the first element of each answer left
    out. *)
Theorem paged_read_three_pages (utcoffset : Z) (token : json)
    (ps : gmap string json) (lg : list event)
    (m1 m2 m3 : json) (p1 p2 p3 : list json) (more : list Response)
    (tasks : list (loaded Task Task)) (fuel : nat) :
  length p1 = 1000%nat -> length p2 = 1000%nat -> length p3 = 400%nat ->
  existsb (is_str "errorCode") (m1 :: p1) = false ->
  existsb (is_str "errorCode") (m2 :: p2) = false ->
  existsb (is_str "errorCode") (m3 :: p3) = false ->
  omap (TaskSchema.load_data utcoffset) (p1 ++ p2 ++ p3)%list = Ret tasks ->
  (3 <= fuel)%nat ->
  GetTasks (list Response) playback utcoffset fuel (OAuth2Session token)
    (ps, mkWorld (page_response m1 p1 :: page_response m2 p2
                  :: page_response m3 p3 :: more) lg)
  = (Ret tasks,
     (page_params ps 1000 2000,
      mkWorld more
        (lg ++ [Sent (page_request ps 1000 0);
                Sent (page_request ps 1000 1000);
                Sent (page_request ps 1000 2000)])%list))
  /\ length tasks = 2400%nat
  /\ params (page_request ps 1000 0) !! "start" = Some (Plain_value (JNum 0))
  /\ params (page_request ps 1000 1000) !! "start"
     = Some (Plain_value (JNum 1000))
  /\ params (page_request ps 1000 2000) !! "start"
     = Some (Plain_value (JNum 2000)).
Proof.
  intros H1 H2 H3 Hm1 Hm2 Hm3 Hload Hfuel.
  destruct fuel as [|[|[|fuel]]]; try lia.
  split; [|split; [|repeat split; apply page_request_carries]].
  - unfold GetTasks. unfold bind at 1.
    rewrite playback_full_page by (assumption || lia).
    rewrite playback_full_page by (assumption || lia).
    rewrite playback_last_page by (assumption || lia).
    change (0 + 1000)%nat with 1000%nat.
    change (1000 + 1000)%nat with 2000%nat.
    rewrite !page_request_again, !page_params_again.
    unfold lift. rewrite <- !app_assoc, app_nil_l, Hload. reflexivity.
  - rewrite (omap_length _ _ _ Hload), !length_app. lia.
Qed.

(** ** Runs against sample services *)

Lemma accept_answers_ok : answers_ok accept.
Proof.
  intros token r s. exists (mkResponse 200 (Some (JList []))), s, (JList []).
  repeat split.
Qed.

Lemma refuse_answers_error errorCode errorDesc :
  answers_error (refuse errorCode errorDesc) (JNum errorCode).
Proof.
  intros token r s. eexists _, s, _. repeat split.
Qed.

Lemma batch_requests_are_chunks_witness :
  exists w',
    AddTasks unit accept 0 (OAuth2Session JNull)
      (replicate 100 (sample_task 7)) (mkWorld tt [])
    = (Ret tt, w')
    /\ log w'
      = ([] ++ map (post addTasksUrl)
                 (batches 50 (replicate 100 (sample_wire 7))))%list.
Proof.
  destruct (batch_requests_are_chunks accept 0 accept_answers_ok JNull
              (replicate 100 (sample_task 7)) (mkWorld tt []))
    as (_ & H & _).
  destruct (H (replicate 100 (sample_wire 7))) as [Hadd _].
  - vm_compute. reflexivity.
  - exact Hadd.
Defined.

Lemma paged_read_three_pages_witness :
  fst (GetTasks (list Response) playback 0 3 (OAuth2Session JNull)
         (∅, mkWorld [page_response sample_marker (replicate 1000 (sample_wire 1));
                      page_response sample_marker (replicate 1000 (sample_wire 2));
                      page_response sample_marker (replicate 400 (sample_wire 3))]
               []))
  = Ret (replicate 1000 (sample_loaded 1) ++ replicate 1000 (sample_loaded 2)
         ++ replicate 400 (sample_loaded 3))%list.
Proof.
  destruct (paged_read_three_pages 0 JNull ∅ [] sample_marker sample_marker
              sample_marker (replicate 1000 (sample_wire 1))
              (replicate 1000 (sample_wire 2)) (replicate 400 (sample_wire 3))
              []
              (replicate 1000 (sample_loaded 1) ++ replicate 1000 (sample_loaded 2)
               ++ replicate 400 (sample_loaded 3))%list 3)
    as [Hrun _].
  - apply length_replicate.
  - apply length_replicate.
  - apply length_replicate.
  - vm_compute. reflexivity.
  - vm_compute. reflexivity.
  - vm_compute. reflexivity.
  - vm_compute. reflexivity.
  - lia.
  - rewrite Hrun. reflexivity.
Defined.

Lemma error_marker_NameError_in_add_and_delete_witness :
  fst (AddTasks unit (refuse 601 "Your task must have a title.") 0
         (OAuth2Session JNull) [sample_task 1] (mkWorld tt []))
  = Exc (NameError "tasks")
  /\ fst (DeleteTasks unit (refuse 601 "Your task must have a title.")
            (OAuth2Session JNull) [sample_task 1] (mkWorld tt []))
    = Exc (NameError "tasks")
  /\ fst (EditTasks unit (refuse 601 "Your task must have a title.") 0
            (OAuth2Session JNull) [sample_task 1] (mkWorld tt []))
    = Exc (ToodledoError "Your task must have a title." (JNum 601)).
Proof.
  destruct (error_marker_NameError_in_add_and_delete
              (refuse 601 "Your task must have a title.") 0 JNull
              [sample_task 1] [sample_wire 1] [JNum 1] (JNum 601) ∅ 0
              (mkWorld tt []))
    as (Hadd & Hdelete & Hedit & _).
  - apply refuse_answers_error.
  - discriminate.
  - reflexivity.
  - reflexivity.
  - repeat split; assumption.
Defined.

Lemma title_length_unchecked_on_encode_witness :
  (exists kv,
     [JDict [("id", JNum 1); ("title", JStr long_title)]] !! 0%nat
     = Some (JDict kv)
     /\ assoc "title" kv = Some (JStr long_title))
  /\ exists s' rest,
       snd (AddTasks unit accept 0 (OAuth2Session JNull) [long_task]
              (mkWorld tt []))
       = mkWorld s'
           ([] ++ post addTasksUrl
                    (take 50 [JDict [("id", JNum 1); ("title", JStr long_title)]])
                  :: rest).
Proof.
  destruct (title_length_unchecked_on_encode accept 0 JNull [long_task]
              (mkWorld tt []) 0%nat long_task long_title
              eq_refl eq_refl eq_refl)
    as (_ & _ & H).
  destruct (H [JDict [("id", JNum 1); ("title", JStr long_title)]] eq_refl)
    as (Hrecord & Hadd & _).
  split; assumption.
Defined.

(** C9 as stated fails: a task with a title of 256 characters is encoded and
    sent, by [AddTasks] and by [EditTasks] alike, and the call returns. *)
Lemma long_title_is_sent :
  String.length long_title = 256%nat
  /\ AddTasks unit accept 0 (OAuth2Session JNull) [long_task] (mkWorld tt [])
    = (Ret tt,
       mkWorld tt [post addTasksUrl
                     [JDict [("id", JNum 1); ("title", JStr long_title)]]])
  /\ EditTasks unit accept 0 (OAuth2Session JNull) [long_task] (mkWorld tt [])
    = (Ret tt,
       mkWorld tt [post editTasksUrl
                     [JDict [("id", JNum 1); ("title", JStr long_title)]]])
  /\ fst (AddTasks unit accept 0 (OAuth2Session JNull) [long_task]
            (mkWorld tt []))
    <> Exc (ValidationError "title").
Proof.
  repeat split; try (vm_compute; reflexivity).
  vm_compute. discriminate.
Qed.

Lemma GetTasks_sets_start_and_num_witness :
  exists n,
    (n <= 1)%nat
    /\ log (snd (snd (GetTasks unit accept 0 1 (OAuth2Session JNull)
                        ({[ "comp" := JNum 0 ]}, mkWorld tt []))))
      = ([] ++ rounds {[ "comp" := JNum 0 ]} 1000 0 n)%list.
Proof.
  destruct (GetTasks unit accept 0 1 (OAuth2Session JNull)
              ({[ "comp" := JNum 0 ]}, mkWorld tt []))
    as [o [ps' w']] eqn:Hrun.
  destruct (GetTasks_sets_start_and_num accept 0 1 JNull
              {[ "comp" := JNum 0 ]} ps' (mkWorld tt []) w' o Hrun)
    as (n & Hn & _ & Hlog & _).
  exists n. split; assumption.
Defined.

(** C10 as stated fails: a call with the mapping [{"start": 5, "comp": 0}]
    leaves ["start"] at 0 and a new key ["num"] in the caller's mapping, and
    its request carries 0 for ["start"], not 5. *)
Lemma GetTasks_modifies_params :
  let ps : gmap string json := <["start" := JNum 5]> {[ "comp" := JNum 0 ]} in
  let run := GetTasks unit accept 0 1 (OAuth2Session JNull) (ps, mkWorld tt []) in
  fst run = Ret []
  /\ ps !! "num" = None
  /\ fst (snd run) !! "num" = Some (JNum 1000)
  /\ ps !! "start" = Some (JNum 5)
  /\ fst (snd run) !! "start" = Some (JNum 0)
  /\ fst (snd run) <> ps
  /\ exists r, log (snd (snd run)) = [Sent r]
               /\ params r !! "start" = Some (Plain_value (JNum 0))
               /\ params r !! "comp" = Some (Plain_value (JNum 0)).
Proof.
  cbv zeta. repeat split; try (vm_compute; reflexivity).
  - intros H. apply (f_equal (fun m => m !! "num")) in H.
    vm_compute in H. discriminate.
  - eexists. split; [vm_compute; reflexivity|].
    split; vm_compute; reflexivity.
Qed.

(** ** The service client *)

Section ClientProperties.

Context {server : Type}.
Variable send : json -> Request -> server -> (exn + Response) * server.
Variable authorize : server -> (exn + json) * server.
Variable utcoffset : Z.

(** Whatever the call raises, the [except] clause raises [NameError] in
    its place, the client and the state being as the call left them. *)
Lemma ReauthorizeIfNecessary_raises {S A} (Authorize : M S json)
    (func : session_obj -> M S A) self s e s' :
  func (Toodledo.session self) s = (Exc e, s') ->
  Toodledo.ReauthorizeIfNecessary Authorize func (self, s)
  = (Exc (NameError "TokenMissingError"), (self, s')).
Proof.
  intros Hfunc.
  unfold Toodledo.ReauthorizeIfNecessary, catch, bind, Toodledo.the_session,
    on_snd. cbn [fst snd]. rewrite Hfunc. reflexivity.
Qed.

Lemma ReauthorizeIfNecessary_returns {S A} (Authorize : M S json)
    (func : session_obj -> M S A) self s a s' :
  func (Toodledo.session self) s = (Ret a, s') ->
  Toodledo.ReauthorizeIfNecessary Authorize func (self, s)
  = (Ret a, (self, s')).
Proof.
  intros Hfunc.
  unfold Toodledo.ReauthorizeIfNecessary, catch, bind, Toodledo.the_session,
    on_snd. cbn [fst snd]. rewrite Hfunc. reflexivity.
Qed.

(** C3: when the call underneath returns the account, or the tasks, the
    method of the client returns [None]: it drops what
    [ReauthorizeIfNecessary] hands back. *)
Theorem client_methods_return_None (self : Toodledo.self_t)
    (w : World server) :
  (forall account w',
      GetAccount server send utcoffset (Toodledo.session self) w
      = (Ret account, w') ->
      Toodledo.GetAccount server send authorize utcoffset (self, w)
      = (Ret None, (self, w')))
  /\ (forall fuel ps tasks st',
        GetTasks server send utcoffset fuel (Toodledo.session self) (ps, w)
        = (Ret tasks, st') ->
        Toodledo.GetTasks server send authorize utcoffset fuel (self, (ps, w))
        = (Ret None, (self, st'))).
Proof.
  split.
  - intros account w' Hrun. unfold Toodledo.GetAccount.
    unfold bind at 1.
    now rewrite (ReauthorizeIfNecessary_returns _ _ _ _ _ _ Hrun).
  - intros fuel ps tasks st' Hrun. unfold Toodledo.GetTasks.
    unfold bind at 1.
    now rewrite (ReauthorizeIfNecessary_returns _ _ _ _ _ _ Hrun).
Qed.

(** C8: when the call underneath raises, a missing token included, the
    client neither authorizes again nor calls again: the name in the
    [except] clause is bound nowhere, and [NameError] comes out, with
    nothing done after the failed call.  The three writing methods always
    end this way, their call passing a keyword that the function does not
    take. *)
Theorem no_retry_on_missing_token (self : Toodledo.self_t)
    (w : World server) :
  (forall w',
      GetAccount server send utcoffset (Toodledo.session self) w
      = (Exc TokenMissingError, w') ->
      Toodledo.GetAccount server send authorize utcoffset (self, w)
      = (Exc (NameError "TokenMissingError"), (self, w')))
  /\ (forall fuel ps st',
        GetTasks server send utcoffset fuel (Toodledo.session self) (ps, w)
        = (Exc TokenMissingError, st') ->
        Toodledo.GetTasks server send authorize utcoffset fuel (self, (ps, w))
        = (Exc (NameError "TokenMissingError"), (self, st')))
  /\ (forall params,
        Toodledo.EditTasks server authorize params (self, w)
        = (Exc (NameError "TokenMissingError"), (self, w))
        /\ Toodledo.AddTasks server authorize params (self, w)
           = (Exc (NameError "TokenMissingError"), (self, w))
        /\ Toodledo.DeleteTasks server authorize params (self, w)
           = (Exc (NameError "TokenMissingError"), (self, w))).
Proof.
  split; [|split].
  - intros w' Hrun. unfold Toodledo.GetAccount. unfold bind at 1.
    now rewrite (ReauthorizeIfNecessary_raises _ _ _ _ _ _ Hrun).
  - intros fuel ps st' Hrun. unfold Toodledo.GetTasks. unfold bind at 1.
    now rewrite (ReauthorizeIfNecessary_raises _ _ _ _ _ _ Hrun).
  - intros params. repeat split; reflexivity.
Qed.

End ClientProperties.

Lemma client_methods_return_None_witness :
  fst (GetAccount unit account_answer 0 (Toodledo.session sample_self)
         (mkWorld tt []))
  = Ret (Made (mkAccount
                 (Some (mkdatetime (mkdate 2020 2 29) 0 0 0)) None))
  /\ fst (Toodledo.GetAccount unit account_answer fresh_token 0
            (sample_self, mkWorld tt []))
     = Ret None.
Proof.
  destruct (client_methods_return_None account_answer fresh_token 0
              sample_self (mkWorld tt [])) as [Haccount _].
  split; [reflexivity|].
  now rewrite (Haccount _ _ eq_refl).
Defined.

Lemma no_retry_on_missing_token_witness :
  Toodledo.GetAccount unit token_missing fresh_token 0
    (sample_self, mkWorld tt [])
  = (Exc (NameError "TokenMissingError"),
     (sample_self, mkWorld tt [Sent (mkRequest GET getAccountUrl ∅)])).
Proof.
  destruct (no_retry_on_missing_token token_missing fresh_token 0
              sample_self (mkWorld tt [])) as [Haccount _].
  apply Haccount. reflexivity.
Defined.

(** * Further properties *)

(** ** The calendar, from ordinals to dates and back *)

Lemma ords_ok_cycle : ords_ok (Z.to_nat 146097) 1 = true.
Proof. vm_compute. reflexivity. Qed.

Lemma ords_ok_spec n : forall k j,
  ords_ok n k = true -> k <= j < k + Z.of_nat n ->
  ymd2ord (ord2ymd j) = j.
Proof.
  induction n as [|n IH]; intros k j H Hj; [lia|].
  cbn [ords_ok] in H. apply andb_true_iff in H as [Hk Hrest].
  destruct (Z.eq_dec j k) as [->|Hne]; [now apply Z.eqb_eq|].
  apply (IH (k + 1)); [exact Hrest|lia].
Qed.

(** An ordinal, of any size, is the ordinal of its date. *)
Lemma ymd2ord_ord2ymd n : ymd2ord (ord2ymd n) = n.
Proof.
  set (k := (n - 1) / DI400Y). set (n0 := (n - 1) mod DI400Y + 1).
  assert (Hn : n = n0 + DI400Y * k) by (unfold n0, k, DI400Y; zdiv).
  assert (Hn0 : 1 <= n0 <= 146097) by (unfold n0, DI400Y; zdiv).
  rewrite Hn. clearbody n0 k. clear Hn.
  rewrite ord2ymd_period. cbv zeta.
  rewrite ymd2ord_period. f_equal.
  destruct (ord2ymd n0) as [y m d] eqn:E. simpl. rewrite <- E.
  apply (ords_ok_spec (Z.to_nat 146097) 1); [exact ords_ok_cycle|].
  rewrite Z2Nat.id by lia. lia.
Qed.

(** ** The date and datetime codecs, both ways *)



(** X1: in a zone whose offset from UTC is constant, decoding what the date
    codec encoded gives the value back: [None] for [None], and a date that
    [timestamp()] accepts for itself unless its encoding is the wire
    value 0. *)
Theorem date_codec_round_trip (utcoffset : Z) (v : option date) :
  (forall d, v = Some d ->
     valid_date d = true
     /\ date_encodes utcoffset d = true
     /\ ToodledoDate._serialize utcoffset (Some d) <> 0) ->
  ToodledoDate._deserialize utcoffset (JNum (ToodledoDate._serialize utcoffset v))
  = Ret v.
Proof.
  intros Hv. destruct v as [d|]; [|reflexivity].
  destruct (Hv d eq_refl) as (Hvalid & _ & Hnz).
  now apply date_roundtrip_nonzero.
Qed.

(** X2: a wire date at noon GMT, as the service sends it, decodes to its
    calendar date in every time zone less than twelve hours from GMT. *)
Theorem noon_GMT_decodes_to_its_date (utcoffset : Z) (d : date) :
  valid_date d = true ->
  -43200 <= utcoffset < 43200 ->
  ToodledoDate._deserialize utcoffset (JNum (timestamp 0 (at_noon d)))
  = Ret (Some d).
Proof.
  intros Hv Htz.
  pose proof (ymd2ord_range d Hv) as [Hlo Hhi].
  assert (Hloc : local_ordinal utcoffset (timestamp 0 (at_noon d)) = ymd2ord d).
  { unfold local_ordinal, timestamp, at_noon. simpl.
    generalize (ymd2ord d). intros n. zdiv. }
  assert (Hnz : timestamp 0 (at_noon d) <> 0).
  { unfold timestamp, at_noon. simpl. generalize (ymd2ord d). intros n. lia. }
  remember (timestamp 0 (at_noon d)) as t eqn:Et.
  unfold ToodledoDate._deserialize, eq_zero.
  apply Z.eqb_neq in Hnz. rewrite Hnz.
  unfold py_float, obind, date_fromtimestamp. rewrite Hloc.
  apply Z.leb_le in Hlo, Hhi. rewrite Hlo, Hhi. simpl andb. cbv iota.
  apply valid_date_fields in Hv as (_ & Hm & Hd).
  destruct d as [y m dd]; simpl in Hm, Hd.
  rewrite ord2ymd_ymd2ord by assumption. reflexivity.
Qed.

(** X3: in a zone whose offset from UTC is constant, a wire value that
    decodes to a date that [timestamp()] accepts is encoded again as the
    start of its local day: the value less the seconds since local
    midnight, never later than the value and less than a day before it. *)
Theorem date_wire_value_becomes_local_midnight (utcoffset t : Z) (d : date) :
  ToodledoDate._deserialize utcoffset (JNum t) = Ret (Some d) ->
  date_encodes utcoffset d = true ->
  ToodledoDate._serialize utcoffset (Some d) = t - (t + utcoffset) mod 86400
  /\ t - 86400 < ToodledoDate._serialize utcoffset (Some d) <= t.
Proof.
  intros Hdec _.
  assert (Hd : d = ord2ymd (local_ordinal utcoffset t)).
  { unfold ToodledoDate._deserialize in Hdec.
    destruct (eq_zero (JNum t)); [discriminate|].
    unfold py_float, obind, date_fromtimestamp in Hdec.
    destruct (_ && _); [|discriminate]. congruence. }
  assert (Hser : ToodledoDate._serialize utcoffset (Some d)
                 = t - (t + utcoffset) mod 86400).
  { subst d. unfold ToodledoDate._serialize, timestamp, datetime_ymd. simpl.
    replace (mkdate (year (ord2ymd (local_ordinal utcoffset t)))
               (month (ord2ymd (local_ordinal utcoffset t)))
               (day (ord2ymd (local_ordinal utcoffset t))))
      with (ord2ymd (local_ordinal utcoffset t))
      by now destruct (ord2ymd (local_ordinal utcoffset t)).
    rewrite ymd2ord_ord2ymd. unfold local_ordinal, EPOCH_ORDINAL. zdiv. }
  split; [exact Hser|]. rewrite Hser. zdiv.
Qed.




(** ** The tag codec: order, pieces and blanks *)


Lemma ascii_compare_trans x y z :
  Ascii.compare x y <> Gt -> Ascii.compare y z <> Gt ->
  Ascii.compare x z <> Gt
  /\ (Ascii.compare x z = Eq ->
      Ascii.compare x y = Eq /\ Ascii.compare y z = Eq).
Proof.
  unfold Ascii.compare.
  generalize (N_of_ascii x) (N_of_ascii y) (N_of_ascii z). intros a b c.
  rewrite !N.compare_gt_iff, !N.compare_eq_iff. lia.
Qed.

Lemma leb_trans a : forall b c,
  String.leb a b = true -> String.leb b c = true -> String.leb a c = true.
Proof.
  unfold String.leb.
  induction a as [|x a IH]; intros [|y b] [|z c]; simpl; try congruence.
  intros Hab Hbc.
  destruct (ascii_compare_trans x y z) as [Hxz Heq].
  - destruct (Ascii.compare x y); congruence.
  - destruct (Ascii.compare y z); congruence.
  - destruct (Ascii.compare x z) eqn:E; try congruence.
    destruct (Heq eq_refl) as [Exy Eyz]. rewrite Exy in Hab. rewrite Eyz in Hbc.
    now apply (IH b c).
Qed.

#[local] Instance leb_rel_trans : Transitive leb_rel.
Proof. intros a b c. apply leb_trans. Qed.

#[local] Instance leb_rel_antisym : AntiSymm (=) leb_rel.
Proof. intros a b. apply String.leb_antisym. Qed.

Lemma insert_sorted_Sorted x l :
  Sorted leb_rel l -> Sorted leb_rel (insert_sorted x l).
Proof.
  induction 1 as [|y l Hl IH Hy]; simpl.
  - repeat constructor.
  - destruct (String.leb x y) eqn:E.
    + constructor; [now constructor|]. constructor. exact E.
    + constructor; [exact IH|].
      assert (Hyx : leb_rel y x).
      { destruct (String.leb_total x y) as [H|H]; [congruence|exact H]. }
      destruct l as [|z l]; simpl; [now constructor|].
      destruct (String.leb x z); constructor; [exact Hyx|].
      now inversion Hy.
Qed.

Lemma sorted_Sorted l : Sorted leb_rel (sorted l).
Proof.
  induction l as [|x l IH]; simpl; [constructor|].
  now apply insert_sorted_Sorted.
Qed.

Lemma insert_sorted_Permutation x l : insert_sorted x l ≡ₚ x :: l.
Proof.
  induction l as [|y l IH]; simpl; [reflexivity|].
  destruct (String.leb x y); [reflexivity|].
  rewrite IH. apply Permutation_swap.
Qed.

Lemma sorted_Permutation l : sorted l ≡ₚ l.
Proof.
  induction l as [|x l IH]; simpl; [reflexivity|].
  now rewrite insert_sorted_Permutation, IH.
Qed.

(** X6: the encoding of a list of tags does not depend on the order of the
    list. *)
Theorem tags_encoding_ignores_order (tags tags' : list string) :
  tags ≡ₚ tags' ->
  ToodledoTags._serialize (Some tags) = ToodledoTags._serialize (Some tags').
Proof.
  intros Hp. simpl. do 2 f_equal.
  apply (Sorted_unique leb_rel); try apply sorted_Sorted.
  now rewrite !sorted_Permutation.
Qed.

Lemma append_cons x a b : (String x a ++ b)%string = String x (a ++ b).
Proof. reflexivity. Qed.

Lemma append_assoc a b c : ((a ++ b) ++ c)%string = (a ++ (b ++ c))%string.
Proof.
  induction a as [|x a IH]; [reflexivity|].
  change (String x ((a ++ b) ++ c) = String x (a ++ (b ++ c)))%string.
  now rewrite IH.
Qed.

Lemma srev_onto s : forall acc, rev_onto s acc = (srev s ++ acc)%string.
Proof.
  unfold srev. induction s as [|c s IH]; intros acc; simpl; [reflexivity|].
  rewrite IH, (IH (String c EmptyString)).
  now rewrite append_assoc.
Qed.

Lemma append_empty_r s : (s ++ "")%string = s.
Proof.
  induction s as [|x s IH]; [reflexivity|].
  change (String x (s ++ "") = String x s)%string. now rewrite IH.
Qed.

Lemma srev_cons c s : srev (String c s) = (srev s ++ String c "")%string.
Proof. unfold srev at 1. simpl. apply srev_onto. Qed.

Lemma srev_app a b : srev (a ++ b) = (srev b ++ srev a)%string.
Proof.
  induction a as [|c a IH].
  - simpl. now rewrite append_empty_r.
  - now rewrite append_cons, !srev_cons, IH, append_assoc.
Qed.

Lemma srev_involutive s : srev (srev s) = s.
Proof.
  induction s as [|c s IH]; [reflexivity|].
  now rewrite srev_cons, srev_app, IH.
Qed.

Lemma lstrip_twice s : lstrip (lstrip s) = lstrip s.
Proof.
  induction s as [|c s IH]; simpl; [reflexivity|].
  destruct (isspace c) eqn:E; [exact IH|]. simpl. now rewrite E.
Qed.

Lemma rstrip_twice s : rstrip (rstrip s) = rstrip s.
Proof. unfold rstrip. now rewrite srev_involutive, lstrip_twice. Qed.

Lemma lstrip_head s c u : lstrip s = String c u -> isspace c = false.
Proof.
  induction s as [|x s IH]; simpl; [discriminate|].
  destruct (isspace x) eqn:E; [exact IH|]. intros [= <- _]. exact E.
Qed.

Lemma lstrip_snoc s c :
  isspace c = false ->
  lstrip (s ++ String c "") = (lstrip s ++ String c "")%string.
Proof.
  intros Hc. induction s as [|x s IH]; [simpl; now rewrite Hc|].
  rewrite append_cons. simpl. destruct (isspace x); [exact IH|reflexivity].
Qed.

Lemma rstrip_cons c s :
  isspace c = false -> rstrip (String c s) = String c (rstrip s).
Proof.
  intros Hc. unfold rstrip.
  now rewrite srev_cons, lstrip_snoc, srev_app by assumption.
Qed.

(** What [strip] returns has no blank at either end left to strip. *)
Lemma strip_twice s : strip (strip s) = strip s.
Proof.
  unfold strip.
  assert (H : lstrip (rstrip (lstrip s)) = rstrip (lstrip s)).
  { destruct (lstrip s) as [|c u] eqn:E; [reflexivity|].
    pose proof (lstrip_head _ _ _ E) as Hc.
    rewrite rstrip_cons by assumption. simpl. now rewrite Hc. }
  now rewrite H, rstrip_twice.
Qed.

Lemma split_length s : length (split "," s) = S (count_commas s).
Proof.
  induction s as [|c s IH]; simpl; [reflexivity|].
  destruct (Ascii.eqb c ","); simpl; [now rewrite IH|].
  destruct (split "," s); simpl in *; lia.
Qed.

Lemma split_pieces s : Forall (fun t => has_comma t = false) (split "," s).
Proof.
  induction s as [|c s IH]; simpl; [repeat constructor|].
  destruct (Ascii.eqb c ",") eqn:E; [now constructor|].
  destruct (split "," s) as [|p ps]; [repeat constructor; simpl; now rewrite E|].
  inversion IH; subst. constructor; [simpl; now rewrite E|assumption].
Qed.

Lemma has_comma_app a b : has_comma (a ++ b) = has_comma a || has_comma b.
Proof.
  induction a as [|c a IH]; [reflexivity|].
  rewrite append_cons. simpl. rewrite IH. now rewrite orb_assoc.
Qed.

Lemma has_comma_srev s : has_comma (srev s) = has_comma s.
Proof.
  induction s as [|c s IH]; [reflexivity|].
  rewrite srev_cons, has_comma_app, IH. simpl.
  rewrite orb_false_r. apply orb_comm.
Qed.

Lemma has_comma_lstrip s : has_comma s = false -> has_comma (lstrip s) = false.
Proof.
  induction s as [|c s IH]; simpl; [reflexivity|].
  intros H. apply orb_false_iff in H as [Hc Hs].
  destruct (isspace c); [now apply IH|]. simpl. now rewrite Hc, Hs.
Qed.

Lemma has_comma_strip s : has_comma s = false -> has_comma (strip s) = false.
Proof.
  intros H. unfold strip, rstrip.
  rewrite has_comma_srev. apply has_comma_lstrip.
  rewrite has_comma_srev. now apply has_comma_lstrip.
Qed.

(** X7: a string other than the empty one decodes to one piece more than it
    has commas, and each piece is free of commas and of blanks at its ends. *)
Theorem tags_decoding_pieces (s : string) :
  s <> "" ->
  exists pieces,
    ToodledoTags._deserialize (JStr s) = Ret pieces
    /\ length pieces = S (count_commas s)
    /\ Forall (fun t => has_comma t = false /\ strip t = t) pieces.
Proof.
  intros Hs. exists (map strip (split "," s)). split; [|split].
  - simpl. destruct (String.eqb s "") eqn:E; [|reflexivity].
    now apply String.eqb_eq in E.
  - now rewrite length_map, split_length.
  - apply Forall_map. eapply Forall_impl; [apply split_pieces|].
    intros t Ht. simpl. split; [now apply has_comma_strip|apply strip_twice].
Qed.

Lemma dump_field_total {A} key (f : option A -> json) (a : attr A) :
  dump_field key (fun v => Ret (f v)) a = Ret (field_entry key (f <$> as_option a)).
Proof. now destruct a. Qed.

(** What [dump] returns for a task whose tags are not [None]. *)
Lemma dump_wire_record utcoffset task :
  tags task <> IsNone ->
  TaskSchema.dump utcoffset task = Ret (JDict (wire_record utcoffset task)).
Proof.
  intros Htags. unfold TaskSchema.dump, wire_record.
  destruct task as [i ti tg sd dd md cd]. simpl in *.
  unfold Integer_serialize, String_serialize.
  rewrite !dump_field_total. cbn [obind].
  assert (Htag : dump_field "tag"
                   (fun v => (s <- ToodledoTags._serialize v ;; Ret (JStr s))%out) tg
                 = Ret (field_entry "tag" (wire_tags tg))).
  { destruct tg; [reflexivity|contradiction|reflexivity]. }
  rewrite Htag. cbn [obind].
  unfold wire_date, wire_datetime.
  destruct i, ti; reflexivity.
Qed.


Lemma load_field_raw {A} attr_name load_from
    (deserialize : json -> outcome (field_result A)) kv :
  load_field attr_name load_from deserialize kv
  = match raw_value attr_name load_from kv with
    | None => Ret FMissing
    | Some JNull => Ret (FInvalid "Field may not be null.")
    | Some v => deserialize v
    end.
Proof. reflexivity. Qed.














(** X9: in a zone whose offset from UTC is constant, for a task whose tags
    are not [None] and whose dates and timestamps [timestamp()] accepts,
    [dump] writes every attribute that is set under its wire name, leaves
    out the attributes that are not set, and never writes one of the
    attribute names that differ from the wire names. *)
Theorem dump_writes_wire_names (utcoffset : Z) (task : Task) :
  tags task <> IsNone ->
  stamps_encode utcoffset task = true ->
  exists kv,
    TaskSchema.dump utcoffset task = Ret (JDict kv)
    /\ assoc "id" kv = wire_id (id_ task)
    /\ assoc "title" kv = wire_title (title task)
    /\ assoc "tag" kv = wire_tags (tags task)
    /\ assoc "startdate" kv = wire_date utcoffset (startDate task)
    /\ assoc "duedate" kv = wire_date utcoffset (dueDate task)
    /\ assoc "modified" kv = wire_datetime utcoffset (modified task)
    /\ assoc "completed" kv = wire_date utcoffset (completedDate task)
    /\ Forall (fun name => assoc name kv = None)
         ["id_"; "tags"; "startDate"; "dueDate"; "completedDate"].
Proof.
  intros Htags _. exists (wire_record utcoffset task).
  split; [now apply dump_wire_record|].
  unfold wire_record.
  destruct (wire_id (id_ task)), (wire_title (title task)),
    (wire_tags (tags task)), (wire_date utcoffset (startDate task)),
    (wire_date utcoffset (dueDate task)),
    (wire_datetime utcoffset (modified task)),
    (wire_date utcoffset (completedDate task));
    repeat split; repeat constructor.
Qed.

(** X10: in a zone whose offset from UTC is constant, on a list of tasks
    whose dates and timestamps [timestamp()] accepts, [DumpTaskList] raises
    [AssertionError] as soon as one task has its tags set to [None];
    otherwise it returns one record per task, in order. *)
Theorem DumpTaskList_fails_on_None_tags (utcoffset : Z) (taskList : list Task) :
  Forall (fun t => stamps_encode utcoffset t = true) taskList ->
  (Exists (fun t => tags t = IsNone) taskList ->
   DumpTaskList utcoffset taskList = Exc AssertionError)
  /\ (Forall (fun t => tags t <> IsNone) taskList ->
      exists wire,
        DumpTaskList utcoffset taskList = Ret wire
        /\ length wire = length taskList
        /\ forall i t, taskList !! i = Some t ->
             wire !! i = Some (JDict (wire_record utcoffset t))).
Proof.
  intros _. split.
  - unfold DumpTaskList.
    induction taskList as [|t l IH]; intros H; [now inversion H|].
    simpl.
    destruct (tags t) as [| |tg] eqn:Et.
    + rewrite dump_wire_record by congruence. cbn [obind].
      inversion H; subst; [congruence|]. now rewrite IH.
    + now rewrite dump_tags_None.
    + rewrite dump_wire_record by congruence. cbn [obind].
      inversion H as [? ? Hh|? ? Ht]; subst; [congruence|]. now rewrite IH.
  - intros Hall.
    destruct (DumpTaskList_total utcoffset taskList Hall) as [wire Hdump].
    exists wire. split; [exact Hdump|].
    split; [now apply (omap_length _ _ _ Hdump)|].
    intros i t Hi.
    destruct (DumpTaskList_lookup utcoffset _ _ _ _ Hdump Hi) as (j & Hj & Hd).
    rewrite dump_wire_record in Hd.
    + congruence.
    + rewrite Forall_forall in Hall. apply Hall.
      now apply list_elem_of_lookup_2 in Hi.
Qed.

(** X11: a task that [load] made without error is complete exactly when the
    value of its completed field is not 0, and [IsComplete] raises
    [AttributeError] when the record had no such field. *)
Theorem loaded_task_IsComplete (utcoffset : Z) (kv : list (string * json))
    (task : Task) :
  TaskSchema.load utcoffset (JDict kv) = Ret (mkResult (Made task) []) ->
  IsComplete task
  = match raw_value "completedDate" "completed" kv with
    | None => Exc (AttributeError "completedDate")
    | Some v => Ret (negb (eq_zero v))
    end.
Proof.
  unfold TaskSchema.load. intros Hload.
  destruct (load_field "id_" "id" Integer_deserialize kv) as [r1| |];
    try discriminate.
  destruct (load_field "title" "title" _ kv) as [r2| |]; try discriminate.
  destruct (load_field "tags" "tag" _ kv) as [r3| |]; try discriminate.
  destruct (load_field "startDate" "startdate" _ kv) as [r4| |];
    try discriminate.
  destruct (load_field "dueDate" "duedate" _ kv) as [r5| |]; try discriminate.
  destruct (load_field "modified" "modified" _ kv) as [r6| |];
    try discriminate.
  destruct (load_field "completedDate" "completed" _ kv) as [r7| |] eqn:E7;
    try discriminate.
  cbn [obind] in Hload.
  match type of Hload with
  | Ret (match ?errs with [] => _ | _ => _ end) = _ =>
      destruct errs eqn:Eerr; [|discriminate Hload]
  end.
  injection Hload as <-.
  repeat (apply app_eq_nil in Eerr as [_ Eerr]).
  rewrite load_field_raw in E7. unfold IsComplete. simpl completedDate.
  destruct (raw_value "completedDate" "completed" kv) as [v|].
  - assert (Hv : v <> JNull -> custom_deserialize
                    (ToodledoDate._deserialize utcoffset) v = Ret r7)
      by (destruct v; congruence).
    destruct v; try (injection E7 as <-; discriminate);
      specialize (Hv ltac:(discriminate));
      unfold custom_deserialize, ToodledoDate._deserialize in Hv;
      destruct (eq_zero _) eqn:Ez;
      try (simpl in Hv; injection Hv as <-; reflexivity);
      (destruct (py_float _) as [t| |]; try discriminate; simpl in Hv;
       destruct (date_fromtimestamp utcoffset t); try discriminate;
       simpl in Hv; injection Hv as <-; reflexivity).
  - injection E7 as <-. reflexivity.
Qed.

Section MoreTransport.

Context {server : Type}.
Variable send : json -> Request -> server -> (exn + Response) * server.
Variable utcoffset : Z.

(** X12: [GetAccount] makes exactly one request, a GET of the account URL
    without parameters, whatever comes of it; an exception of the transport
    comes out as it is, and a status from 400 to 599 comes out as
    [HTTPError] with that status. *)
Theorem GetAccount_makes_one_request (token : json) (w : World server) :
  let request := mkRequest GET getAccountUrl ∅ in
  (exists s',
     snd (GetAccount server send utcoffset (OAuth2Session token) w)
     = mkWorld s' (log w ++ [Sent request]))
  /\ (forall e s', send token request (remote w) = (inl e, s') ->
        fst (GetAccount server send utcoffset (OAuth2Session token) w) = Exc e)
  /\ (forall response s',
        send token request (remote w) = (inr response, s') ->
        400 <= status_code response < 600 ->
        fst (GetAccount server send utcoffset (OAuth2Session token) w)
        = Exc (HTTPError (status_code response))).
Proof.
  cbv zeta. unfold GetAccount, session_get, perform, bind, ret, lift.
  destruct (send token (mkRequest GET getAccountUrl ∅) (remote w))
    as [[e|response] s'] eqn:Hsend.
  - split; [now exists s'|].
    split; [now intros e0 s0 [= <- <-]|discriminate].
  - split.
    + exists s'. destruct (raise_for_status response) as [[]| |]; try reflexivity.
      destruct (json_of response) as [j| |]; try reflexivity.
      destruct (AccountSchema.load utcoffset j); reflexivity.
    + split; [discriminate|].
      intros response' s'' [= <- <-] Hstatus. unfold raise_for_status.
      assert (H1 : (400 <=? status_code response) = true) by (apply Z.leb_le; lia).
      assert (H2 : (status_code response <? 600) = true) by (apply Z.ltb_lt; lia).
      now rewrite H1, H2.
Qed.

(** X13: from a successful answer [GetAccount] returns the account with both
    stamps decoded; when the answer lacks the last-edit stamp, [MakeAccount]
    raises [KeyError]. *)
Theorem GetAccount_decodes_both_stamps (token : json) (w : World server)
    (response : Response) (s' : server) (kv : list (string * json)) :
  send token (mkRequest GET getAccountUrl ∅) (remote w) = (inr response, s') ->
  raise_for_status response = Ret tt ->
  body response = Some (JDict kv) ->
  (forall va vb e d,
      raw_value "lastEditTask" "lastedit_task" kv = Some va ->
      raw_value "lastDeleteTask" "lastdelete_task" kv = Some vb ->
      va <> JNull -> vb <> JNull ->
      ToodledoDatetime._deserialize utcoffset va = Ret e ->
      ToodledoDatetime._deserialize utcoffset vb = Ret d ->
      fst (GetAccount server send utcoffset (OAuth2Session token) w)
      = Ret (Made (mkAccount e d)))
  /\ (raw_value "lastEditTask" "lastedit_task" kv = None ->
      (forall vb, raw_value "lastDeleteTask" "lastdelete_task" kv = Some vb ->
                  vb <> JNull
                  /\ exists d, ToodledoDatetime._deserialize utcoffset vb = Ret d) ->
      fst (GetAccount server send utcoffset (OAuth2Session token) w)
      = Exc (KeyError "lastEditTask")).
Proof.
  intros Hsend Hstatus Hbody.
  assert (Hrun : fst (GetAccount server send utcoffset (OAuth2Session token) w)
                 = (r <- AccountSchema.load utcoffset (JDict kv) ;; Ret (data r))%out).
  { unfold GetAccount, session_get, perform, bind, ret, lift, json_of.
    rewrite Hsend, Hstatus, Hbody.
    now destruct (AccountSchema.load utcoffset (JDict kv)). }
  rewrite Hrun. unfold AccountSchema.load. rewrite !load_field_raw.
  split.
  - intros va vb e d Ha Hb Hna Hnb He Hd. rewrite Ha, Hb.
    unfold custom_deserialize.
    destruct va; try contradiction; destruct vb; try contradiction;
      rewrite He, Hd; reflexivity.
  - intros Ha Hb. rewrite Ha. cbn [obind].
    destruct (raw_value "lastDeleteTask" "lastdelete_task" kv) as [vb|];
      [|reflexivity].
    destruct (Hb vb eq_refl) as [Hnb [d Hd]]. unfold custom_deserialize.
    destruct vb; try contradiction; rewrite Hd; reflexivity.
Qed.


Lemma raise_for_status_error response :
  400 <= status_code response < 600 ->
  raise_for_status response = Exc (HTTPError (status_code response)).
Proof.
  intros Hstatus. unfold raise_for_status.
  assert (H1 : (400 <=? status_code response) = true) by (apply Z.leb_le; lia).
  assert (H2 : (status_code response <? 600) = true) by (apply Z.ltb_lt; lia).
  now rewrite H1, H2.
Qed.

(** X14: when the service answers with a status from 400 to 599, each of
    the four batch operations raises [HTTPError] with that status after its
    first request and sends no other. *)
Theorem error_status_aborts_batch_operations (status : Z) (token : json)
    (taskList : list Task) (chunk ids : list json) (ps : gmap string json)
    (fuel : nat) (w : World server) :
  answers_status send status ->
  400 <= status < 600 ->
  taskList <> [] ->
  DumpTaskList utcoffset (slice taskList 0 50) = Ret chunk ->
  omap getattr_id taskList = Ret ids ->
  (exists s',
     AddTasks server send utcoffset (OAuth2Session token) taskList w
     = (Exc (HTTPError status), mkWorld s' (log w ++ [post addTasksUrl chunk])))
  /\ (exists s',
        EditTasks server send utcoffset (OAuth2Session token) taskList w
        = (Exc (HTTPError status),
           mkWorld s' (log w ++ [post editTasksUrl chunk])))
  /\ (exists s',
        DeleteTasks server send (OAuth2Session token) taskList w
        = (Exc (HTTPError status),
           mkWorld s' (log w ++ [post deleteTasksUrl (slice ids 0 50)])))
  /\ (exists s',
        GetTasks server send utcoffset (S fuel) (OAuth2Session token) (ps, w)
        = (Exc (HTTPError status),
           (page_params ps 1000 0,
            mkWorld s' (log w ++ [Sent (page_request ps 1000 0)])))).
Proof.
  intros Hsend Hstatus Hne Hdump Hids.
  pose proof (not_empty_length taskList Hne) as Hnz.
  repeat split.
  - destruct (Hsend token
                (mkRequest POST addTasksUrl {[ "tasks" := Dumps (JList chunk) ]})
                (remote w)) as (response & s' & Hans & <-).
    exists s'. unfold AddTasks. rewrite Hnz. cbn [AddTasks_loop].
    unfold bind at 1. unfold lift at 1. rewrite Hdump.
    unfold bind at 1. unfold session_post, perform. rewrite Hans.
    unfold bind at 1. unfold lift at 1.
    now rewrite raise_for_status_error.
  - destruct (Hsend token
                (mkRequest POST editTasksUrl {[ "tasks" := Dumps (JList chunk) ]})
                (remote w)) as (response & s' & Hans & <-).
    exists s'. unfold EditTasks. rewrite Hnz. cbn [EditTasks_loop].
    unfold bind at 1. unfold lift at 1. rewrite Hdump.
    unfold bind at 1. unfold session_post, perform. rewrite Hans.
    unfold bind at 1. unfold lift at 1.
    now rewrite raise_for_status_error.
  - destruct (Hsend token
                (mkRequest POST deleteTasksUrl
                   {[ "tasks" := Dumps (JList (slice ids 0 50)) ]})
                (remote w)) as (response & s' & Hans & <-).
    exists s'. unfold DeleteTasks. rewrite Hnz.
    unfold bind at 1. unfold lift at 1. rewrite Hids.
    cbn [DeleteTasks_loop].
    unfold bind at 1. unfold session_post, perform. rewrite Hans.
    unfold bind at 1. unfold lift at 1.
    now rewrite raise_for_status_error.
  - destruct (Hsend token (page_request ps 1000 0) (remote w))
      as (response & s' & Hans & <-).
    exists s'. unfold GetTasks. unfold bind at 1. cbn [GetTasks_loop].
    unfold bind at 1. unfold setitem at 1. cbn [fst snd].
    unfold bind at 1. unfold setitem at 1. cbn [fst snd].
    unfold bind at 1. unfold the_params at 1. cbn [fst snd].
    unfold bind at 1. unfold on_snd, session_get_params, perform.
    cbn [fst snd].
    fold (page_params ps 1000 0). fold (page_request ps 1000 0).
    rewrite Hans.
    unfold bind at 1. unfold lift at 1.
    now rewrite raise_for_status_error.
Qed.

(** X18: when some task has no [id_] attribute, [DeleteTasks] raises
    [AttributeError] and sends nothing. *)
Theorem DeleteTasks_needs_every_id (token : json) (taskList : list Task)
    (w : World server) :
  Exists (fun t => id_ t = Absent) taskList ->
  DeleteTasks server send (OAuth2Session token) taskList w
  = (Exc (AttributeError "id_"), w).
Proof.
  intros Hex.
  assert (Hne : taskList <> []) by (intros ->; inversion Hex).
  unfold DeleteTasks. rewrite (not_empty_length taskList Hne).
  unfold bind, lift.
  assert (Hids : omap getattr_id taskList = Exc (AttributeError "id_")).
  { clear Hne. induction taskList as [|t l IH]; [inversion Hex|].
    simpl. unfold getattr_id at 1.
    destruct (id_ t) eqn:Et; [reflexivity| |];
      (inversion Hex; subst; [congruence|]; now rewrite IH). }
  now rewrite Hids.
Qed.

(** X19: [AddTasks], [EditTasks] and [DeleteTasks] always come to an end,
    whatever the service answers: the offset passes the end of the list. *)
Theorem write_operations_end (token : json) (taskList : list Task)
    (w : World server) :
  fst (AddTasks server send utcoffset (OAuth2Session token) taskList w)
  <> Diverge
  /\ fst (EditTasks server send utcoffset (OAuth2Session token) taskList w)
     <> Diverge
  /\ fst (DeleteTasks server send (OAuth2Session token) taskList w)
     <> Diverge.
Proof.
  split; [apply AddTasks_ends|]. split; [apply EditTasks_ends|].
  apply DeleteTasks_ends.
Qed.

End MoreTransport.

Section Prefixes.

Context {server : Type}.
Variable send : json -> Request -> server -> (exn + Response) * server.
Variable utcoffset : Z.

Lemma take_batches_from_next {A} limit (l : list A) k n :
  (k < length l / limit)%nat ->
  take (S n) (batches_from limit l k)
  = slice l (k * limit) limit :: take n (batches_from limit l (S k)).
Proof. intros Hk. now rewrite batches_from_next. Qed.

Lemma take_batches_from_one {A} limit (l : list A) k :
  (k <= length l / limit)%nat ->
  take 1 (batches_from limit l k) = [slice l (k * limit) limit].
Proof.
  intros Hk. unfold batches_from.
  replace (S (length l / limit) - k)%nat
    with (S (length l / limit - k)) by lia.
  reflexivity.
Qed.

(** Whatever the service answers, the loop of [EditTasks] has sent the first
    batches of what is left, one after the other, and nothing else. *)
Lemma EditTasks_loop_prefix token taskList wire limit :
  (0 < limit)%nat ->
  DumpTaskList utcoffset taskList = Ret wire ->
  forall fuel k w,
    (k <= length wire / limit)%nat ->
    exists n s',
      snd (EditTasks_loop server send utcoffset fuel (OAuth2Session token)
             taskList limit (k * limit) w)
      = mkWorld s' (log w ++ map (post editTasksUrl)
                              (take n (batches_from limit wire k))).
Proof.
  intros Hl Hdump. pose proof (omap_length _ _ _ Hdump) as Hlen.
  induction fuel as [|fuel IH]; intros k w Hk.
  { exists 0%nat, (remote w). simpl. rewrite app_nil_r. now destruct w. }
  assert (Hone : forall (o : outcome unit) s',
             exists n s'',
               snd (o, answered w s'
                         (post editTasksUrl (slice wire (k * limit) limit)))
               = mkWorld s'' (log w ++ map (post editTasksUrl)
                                        (take n (batches_from limit wire k)))).
  { intros o s'. exists 1%nat, s'. now rewrite take_batches_from_one. }
  cbn [EditTasks_loop]. unfold bind at 1. unfold lift at 1.
  unfold DumpTaskList. rewrite (omap_slice _ _ _ (k * limit) limit Hdump).
  unfold bind at 1. unfold session_post, perform.
  destruct (send token _ (remote w)) as [[e|response] s'];
    [apply (Hone (Exc e))|].
  unfold bind at 1. unfold lift at 1.
  destruct (raise_for_status response) as [[]|e|];
    [|apply (Hone (Exc e))|apply (Hone Diverge)].
  unfold bind at 1. unfold lift at 1.
  destruct (json_of response) as [j|e|];
    [|apply (Hone (Exc e))|apply (Hone Diverge)].
  unfold bind at 1. unfold lift at 1.
  destruct (py_in "errorCode" j) as [[|]|e|];
    [| |apply (Hone (Exc e))|apply (Hone Diverge)].
  - unfold bind, lift, raise.
    destruct (py_getitem j "errorCode") as [c|e|];
      [apply (Hone (Exc (raise_ToodledoError c)))
      |apply (Hone (Exc e))|apply (Hone Diverge)].
  - replace (length (slice taskList (k * limit) limit))
      with (length (slice wire (k * limit) limit))
      by (rewrite !slice_length; lia).
    case_bool_decide as Hshort; [apply (Hone (Ret tt))|].
    rewrite short_batch_is_last in Hshort by assumption.
    replace (k * limit + limit)%nat with (S k * limit)%nat by lia.
    destruct (IH (S k)
                (mkWorld s' (log w ++ [post editTasksUrl
                                         (slice wire (k * limit) limit)])))
      as (n & s'' & Hsnd); [lia|].
    exists (S n), s''. etransitivity; [exact Hsnd|]. cbn [log].
    rewrite take_batches_from_next by lia.
    now rewrite <- app_assoc.
Qed.


Lemma AddTasks_loop_prefix token taskList wire limit :
  (0 < limit)%nat ->
  DumpTaskList utcoffset taskList = Ret wire ->
  forall fuel k w,
    (k <= length wire / limit)%nat ->
    exists n s',
      snd (AddTasks_loop server send utcoffset fuel (OAuth2Session token)
             taskList limit (k * limit) w)
      = mkWorld s' (log w ++ map (post addTasksUrl)
                              (take n (batches_from limit wire k))).
Proof.
  intros Hl Hdump. pose proof (omap_length _ _ _ Hdump) as Hlen.
  induction fuel as [|fuel IH]; intros k w Hk.
  { exists 0%nat, (remote w). simpl. rewrite app_nil_r. now destruct w. }
  assert (Hone : forall (o : outcome unit) s',
             exists n s'',
               snd (o, answered w s'
                         (post addTasksUrl (slice wire (k * limit) limit)))
               = mkWorld s'' (log w ++ map (post addTasksUrl)
                                        (take n (batches_from limit wire k)))).
  { intros o s'. exists 1%nat, s'. now rewrite take_batches_from_one. }
  cbn [AddTasks_loop]. unfold bind at 1. unfold lift at 1.
  unfold DumpTaskList. rewrite (omap_slice _ _ _ (k * limit) limit Hdump).
  unfold bind at 1. unfold session_post, perform.
  destruct (send token _ (remote w)) as [[e|response] s'];
    [apply (Hone (Exc e))|].
  unfold bind at 1. unfold lift at 1.
  destruct (raise_for_status response) as [[]|e|];
    [|apply (Hone (Exc e))|apply (Hone Diverge)].
  unfold bind at 1. unfold lift at 1.
  destruct (json_of response) as [j|e|];
    [|apply (Hone (Exc e))|apply (Hone Diverge)].
  unfold bind at 1. unfold lift at 1.
  destruct (py_in "errorCode" j) as [[|]|e|];
    [apply (Hone (Exc (NameError "tasks")))
    | |apply (Hone (Exc e))|apply (Hone Diverge)].
  replace (length (slice taskList (k * limit) limit))
    with (length (slice wire (k * limit) limit))
    by (rewrite !slice_length; lia).
  case_bool_decide as Hshort; [apply (Hone (Ret tt))|].
  rewrite short_batch_is_last in Hshort by assumption.
  replace (k * limit + limit)%nat with (S k * limit)%nat by lia.
  destruct (IH (S k)
              (mkWorld s' (log w ++ [post addTasksUrl
                                       (slice wire (k * limit) limit)])))
    as (n & s'' & Hsnd); [lia|].
  exists (S n), s''. etransitivity; [exact Hsnd|]. cbn [log].
  rewrite take_batches_from_next by lia.
  now rewrite <- app_assoc.
Qed.

Lemma DeleteTasks_loop_prefix token ids limit :
  (0 < limit)%nat ->
  forall fuel k w,
    (k <= length ids / limit)%nat ->
    exists n s',
      snd (DeleteTasks_loop server send fuel (OAuth2Session token)
             ids limit (k * limit) w)
      = mkWorld s' (log w ++ map (post deleteTasksUrl)
                              (take n (batches_from limit ids k))).
Proof.
  intros Hl.
  induction fuel as [|fuel IH]; intros k w Hk.
  { exists 0%nat, (remote w). simpl. rewrite app_nil_r. now destruct w. }
  assert (Hone : forall (o : outcome unit) s',
             exists n s'',
               snd (o, answered w s'
                         (post deleteTasksUrl (slice ids (k * limit) limit)))
               = mkWorld s'' (log w ++ map (post deleteTasksUrl)
                                        (take n (batches_from limit ids k)))).
  { intros o s'. exists 1%nat, s'. now rewrite take_batches_from_one. }
  cbn [DeleteTasks_loop].
  unfold bind at 1. unfold session_post, perform.
  destruct (send token _ (remote w)) as [[e|response] s'];
    [apply (Hone (Exc e))|].
  unfold bind at 1. unfold lift at 1.
  destruct (raise_for_status response) as [[]|e|];
    [|apply (Hone (Exc e))|apply (Hone Diverge)].
  unfold bind at 1. unfold lift at 1.
  destruct (json_of response) as [j|e|];
    [|apply (Hone (Exc e))|apply (Hone Diverge)].
  unfold bind at 1. unfold lift at 1.
  destruct (py_in "errorCode" j) as [[|]|e|];
    [apply (Hone (Exc (NameError "tasks")))
    | |apply (Hone (Exc e))|apply (Hone Diverge)].
  case_bool_decide as Hshort; [apply (Hone (Ret tt))|].
  rewrite short_batch_is_last in Hshort by assumption.
  replace (k * limit + limit)%nat with (S k * limit)%nat by lia.
  destruct (IH (S k)
              (mkWorld s' (log w ++ [post deleteTasksUrl
                                       (slice ids (k * limit) limit)])))
    as (n & s'' & Hsnd); [lia|].
  exists (S n), s''. etransitivity; [exact Hsnd|]. cbn [log].
  rewrite take_batches_from_next by lia.
  now rewrite <- app_assoc.
Qed.

(** X15: whatever the service answers, the requests of [AddTasks],
    [EditTasks] and [DeleteTasks] are the first batches of the list, in
    order, each sent once: a failure ends the sequence and changes nothing
    before it. *)
Theorem write_requests_are_leading_batches (token : json)
    (taskList : list Task) (w : World server) :
  (forall wire, DumpTaskList utcoffset taskList = Ret wire ->
     (exists n s',
        snd (AddTasks server send utcoffset (OAuth2Session token) taskList w)
        = mkWorld s' (log w ++ map (post addTasksUrl)
                                (take n (batches 50 wire))))
     /\ (exists n s',
           snd (EditTasks server send utcoffset (OAuth2Session token) taskList w)
           = mkWorld s' (log w ++ map (post editTasksUrl)
                                   (take n (batches 50 wire)))))
  /\ (forall ids, omap getattr_id taskList = Ret ids ->
        exists n s',
          snd (DeleteTasks server send (OAuth2Session token) taskList w)
          = mkWorld s' (log w ++ map (post deleteTasksUrl)
                                  (take n (batches 50 ids)))).
Proof.
  assert (Hnone : forall u (bs : list (list json)),
             exists n s', w = mkWorld s' (log w ++ map (post u) (take n bs))).
  { intros u bs. exists 0%nat, (remote w). simpl. rewrite app_nil_r.
    now destruct w. }
  split.
  - intros wire Hdump. pose proof (omap_length _ _ _ Hdump) as Hlen.
    destruct (decide (taskList = [])) as [->|Hne]; [split; apply Hnone|].
    assert (Hw : wire <> [])
      by (destruct wire, taskList; simpl in *; congruence).
    rewrite (batches_from_0 50 wire Hw). split.
    + unfold AddTasks. rewrite not_empty_length by assumption.
      apply (AddTasks_loop_prefix token taskList wire 50 ltac:(lia) Hdump
               (S (length taskList)) 0%nat w). lia.
    + unfold EditTasks. rewrite not_empty_length by assumption.
      apply (EditTasks_loop_prefix token taskList wire 50 ltac:(lia) Hdump
               (S (length taskList)) 0%nat w). lia.
  - intros ids Hids. pose proof (omap_length _ _ _ Hids) as Hlen.
    destruct (decide (taskList = [])) as [->|Hne]; [apply Hnone|].
    assert (Hw : ids <> [])
      by (destruct ids, taskList; simpl in *; congruence).
    rewrite (batches_from_0 50 ids Hw).
    unfold DeleteTasks. rewrite not_empty_length by assumption.
    unfold bind at 1. unfold lift at 1. rewrite Hids.
    apply (DeleteTasks_loop_prefix token ids 50 ltac:(lia)
             (S (length ids)) 0%nat w). lia.
Qed.

End Prefixes.

(** ** The paged read, page after page *)

Lemma rounds_snoc ps limit start n :
  rounds ps limit start (S n)
  = (rounds ps limit start n
     ++ [Sent (page_request ps limit (start + n * limit))])%list.
Proof. unfold rounds. now rewrite seq_S, map_app. Qed.

Lemma playback_pages fuel token limit full : forall allTasks start ps lg rest,
  Forall (full_and_clean limit) full ->
  GetTasks_loop (list Response) playback (length full + fuel)
    (OAuth2Session token) allTasks limit start
    (ps, mkWorld (pages full ++ rest)%list lg)
  = GetTasks_loop (list Response) playback fuel (OAuth2Session token)
      (allTasks ++ concat (map snd full))%list limit
      (start + length full * limit)
      (params_after ps limit start (length full),
       mkWorld rest (lg ++ rounds ps limit start (length full))%list).
Proof.
  induction full as [|[marker records] full IH];
    intros allTasks start ps lg rest Hfull.
  - simpl. unfold rounds. simpl. now rewrite !app_nil_r, Nat.add_0_r.
  - inversion Hfull as [|? ? [Hlen Hclean] Hrest]; subst. simpl in Hlen, Hclean.
    change (length ((marker, records) :: full) + fuel)%nat
      with (S (length full + fuel)).
    change (pages ((marker, records) :: full) ++ rest)%list
      with (page_response marker records :: (pages full ++ rest))%list.
    rewrite playback_full_page by assumption.
    rewrite IH by assumption.
    cbn [map concat snd length].
    rewrite params_after_S, rounds_S.
    rewrite <- !app_assoc. cbn [app].
    f_equal. lia.
Qed.

Lemma page_params_after ps limit start n b :
  page_params (params_after ps limit start n) limit b = page_params ps limit b.
Proof. destruct n; [reflexivity|apply page_params_again]. Qed.

Lemma page_request_after ps limit start n b :
  page_request (params_after ps limit start n) limit b
  = page_request ps limit b.
Proof. unfold page_request. now rewrite page_params_after. Qed.

(** X16: against any number of full pages followed by a short one,
    [GetTasks] makes one request per page, at offsets 0, 1000, 2000 and so
    on, and returns all their records decoded, in order; after an exact
    multiple of 1000 records the last request is the one answered by an
    empty page. *)
Theorem GetTasks_reads_up_to_the_short_page (utcoffset : Z) (token : json)
    (ps : gmap string json) (lg : list event)
    (full : list (json * list json)) (marker : json) (records : list json)
    (more : list Response) (tasks : list (loaded Task Task)) (fuel : nat) :
  Forall (full_and_clean 1000) full ->
  (length records < 1000)%nat ->
  existsb (is_str "errorCode") (marker :: records) = false ->
  omap (TaskSchema.load_data utcoffset) (concat (map snd full) ++ records)%list
  = Ret tasks ->
  (length full < fuel)%nat ->
  GetTasks (list Response) playback utcoffset fuel (OAuth2Session token)
    (ps, mkWorld (pages full ++ page_response marker records :: more)%list lg)
  = (Ret tasks,
     (page_params ps 1000 (length full * 1000),
      mkWorld more (lg ++ rounds ps 1000 0 (S (length full)))%list)).
Proof.
  intros Hfull Hshort Hclean Hload Hfuel.
  replace fuel with (length full + S (fuel - length full - 1))%nat by lia.
  unfold GetTasks. unfold bind at 1.
  rewrite playback_pages by assumption.
  rewrite playback_last_page by assumption.
  unfold lift. rewrite app_nil_l, Hload.
  rewrite rounds_snoc, app_assoc, !Nat.add_0_l.
  now rewrite page_params_after, page_request_after.
Qed.

Section Endless.

Context {server : Type}.
Variable send : json -> Request -> server -> (exn + Response) * server.
Variable utcoffset : Z.

Hypothesis Hfull : answers_full_pages send 1000.

Lemma GetTasks_loop_goes_on fuel token : forall allTasks start ps w,
  exists s',
    GetTasks_loop server send fuel (OAuth2Session token) allTasks 1000 start
      (ps, w)
    = (Diverge,
       (params_after ps 1000 start fuel,
        mkWorld s' (log w ++ rounds ps 1000 start fuel)%list)).
Proof.
  induction fuel as [|fuel IH]; intros allTasks start ps w.
  - exists (remote w). simpl. unfold rounds. simpl. rewrite app_nil_r.
    now destruct w.
  - destruct (Hfull token (page_request ps 1000 start) (remote w))
      as (s' & marker & records & Hsend & Hlen & Hclean).
    rewrite (GetTasks_loop_step send fuel token allTasks 1000 start ps w
               (page_response marker records) s'
               (JList (marker :: records)) false
               Hsend eq_refl eq_refl (f_equal Ret Hclean)).
    cbv zeta. unfold rest_of, tail_from_1. simpl drop. rewrite drop_0.
    rewrite bool_decide_eq_false_2 by lia.
    destruct (IH (allTasks ++ records)%list (start + 1000)%nat
                (page_params ps 1000 start)
                (answered w s' (Sent (page_request ps 1000 start))))
      as (s'' & Hrun).
    exists s''. rewrite Hrun. unfold answered. cbn [log].
    rewrite params_after_S, rounds_S. now rewrite <- app_assoc.
Qed.

(** X17: as long as the service answers every request with a full page,
    [GetTasks] does not return: after any number of rounds it has made that
    many requests and is still asking. *)
Theorem GetTasks_goes_on_while_pages_are_full (fuel : nat) (token : json)
    (ps : gmap string json) (w : World server) :
  exists s',
    GetTasks server send utcoffset fuel (OAuth2Session token) (ps, w)
    = (Diverge,
       (params_after ps 1000 0 fuel,
        mkWorld s' (log w ++ rounds ps 1000 0 fuel)%list)).
Proof.
  destruct (GetTasks_loop_goes_on fuel token [] 0%nat ps w) as (s' & Hrun).
  exists s'. unfold GetTasks, bind. now rewrite Hrun.
Qed.

End Endless.

(** X20: when an answer carries an error marker after some full pages,
    [GetTasks] raises [ToodledoError] with its code and returns none of the
    records it had read. *)
Theorem GetTasks_error_discards_pages_read (utcoffset : Z) (token : json)
    (ps : gmap string json) (lg : list event)
    (full : list (json * list json)) (errorCode : Z) (errorDesc : string)
    (more : list Response) (fuel : nat) :
  Forall (full_and_clean 1000) full ->
  (length full < fuel)%nat ->
  GetTasks (list Response) playback utcoffset fuel (OAuth2Session token)
    (ps, mkWorld (pages full ++ error_response errorCode errorDesc :: more)%list
           lg)
  = (Exc (raise_ToodledoError (JNum errorCode)),
     (page_params ps 1000 (length full * 1000),
      mkWorld more (lg ++ rounds ps 1000 0 (S (length full)))%list)).
Proof.
  intros Hfull Hfuel.
  replace fuel with (length full + S (fuel - length full - 1))%nat by lia.
  unfold GetTasks. unfold bind at 1.
  rewrite playback_pages by assumption.
  rewrite (GetTasks_loop_step playback _ token _ 1000 _ _
             (mkWorld (error_response errorCode errorDesc :: more) _)
             (error_response errorCode errorDesc) more
             (JDict [("errorCode", JNum errorCode); ("errorDesc", JStr errorDesc)])
             true eq_refl eq_refl eq_refl eq_refl).
  cbv zeta. cbn [py_getitem assoc String.eqb]. unfold answered. cbn [log].
  rewrite rounds_snoc, app_assoc, !Nat.add_0_l.
  now rewrite page_params_after, page_request_after.
Qed.

(** ** Sample runs *)

Lemma date_codec_round_trip_witness :
  ToodledoDate._deserialize 3600
    (JNum (ToodledoDate._serialize 3600 (Some (mkdate 2020 2 29))))
  = Ret (Some (mkdate 2020 2 29)).
Proof.
  apply (date_codec_round_trip 3600 (Some (mkdate 2020 2 29))).
  intros d [= <-]. split; [reflexivity|]. split; [reflexivity|].
  vm_compute. discriminate.
Defined.

Lemma noon_GMT_decodes_to_its_date_witness :
  ToodledoDate._deserialize (-18000)
    (JNum (timestamp 0 (at_noon (mkdate 2020 2 29))))
  = Ret (Some (mkdate 2020 2 29)).
Proof.
  apply (noon_GMT_decodes_to_its_date (-18000) (mkdate 2020 2 29));
    [reflexivity|lia].
Defined.

Lemma date_wire_value_becomes_local_midnight_witness :
  ToodledoDate._deserialize 3600 (JNum 1582977600)
  = Ret (Some (mkdate 2020 2 29))
  /\ ToodledoDate._serialize 3600 (Some (mkdate 2020 2 29))
     = 1582977600 - (1582977600 + 3600) mod 86400
  /\ 1582977600 - 86400 < ToodledoDate._serialize 3600 (Some (mkdate 2020 2 29))
     <= 1582977600.
Proof.
  split; [reflexivity|].
  apply (date_wire_value_becomes_local_midnight 3600 1582977600
           (mkdate 2020 2 29)); reflexivity.
Defined.



Lemma tags_encoding_ignores_order_witness :
  ToodledoTags._serialize (Some ["home"; "errands"])
  = ToodledoTags._serialize (Some ["errands"; "home"]).
Proof.
  apply (tags_encoding_ignores_order ["home"; "errands"] ["errands"; "home"]).
  apply Permutation_swap.
Defined.

Lemma tags_decoding_pieces_witness :
  exists pieces,
    ToodledoTags._deserialize (JStr "errands , home") = Ret pieces
    /\ length pieces = S (count_commas "errands , home")
    /\ Forall (fun t => has_comma t = false /\ strip t = t) pieces.
Proof.
  apply (tags_decoding_pieces "errands , home"). discriminate.
Defined.



Lemma dump_writes_wire_names_witness :
  exists kv,
    TaskSchema.dump 0 (sample_task 7) = Ret (JDict kv)
    /\ assoc "tag" kv = Some (JStr "errands, home")
    /\ assoc "tags" kv = None.
Proof.
  destruct (dump_writes_wire_names 0 (sample_task 7))
    as (kv & Hdump & _ & _ & Htag & _ & _ & _ & _ & Hnames).
  - discriminate.
  - reflexivity.
  - exists kv. split; [exact Hdump|]. split; [exact Htag|].
    inversion Hnames as [|? ? _ Hrest]. now inversion Hrest.
Defined.

Lemma DumpTaskList_fails_on_None_tags_witness :
  DumpTaskList 0
    [sample_task 1;
     mkTask (Val 2) (Val "Call") IsNone Absent Absent Absent Absent]
  = Exc AssertionError.
Proof.
  apply (DumpTaskList_fails_on_None_tags 0).
  - repeat constructor.
  - apply Exists_cons_tl, Exists_cons_hd. reflexivity.
Defined.

Lemma loaded_task_IsComplete_witness :
  IsComplete (mkTask (Val 7) (Val "Buy milk") (Val ["errands"; "home"])
                (Val (mkdate 2020 2 29)) IsNone Absent IsNone)
  = Ret false.
Proof.
  apply (loaded_task_IsComplete 0
           [("id", JNum 7); ("title", JStr "Buy milk");
            ("tag", JStr "errands, home"); ("startdate", JNum 1582934400);
            ("duedate", JNum 0); ("completed", JNum 0)]).
  reflexivity.
Defined.

Lemma GetAccount_makes_one_request_witness :
  GetAccount unit (fail_with 503) 0 (OAuth2Session JNull) (mkWorld tt [])
  = (Exc (HTTPError 503), mkWorld tt [Sent (mkRequest GET getAccountUrl ∅)]).
Proof.
  destruct (GetAccount_makes_one_request (fail_with 503) 0 JNull (mkWorld tt []))
    as ([s' Hw] & _ & Hstatus).
  specialize (Hstatus (mkResponse 503 None) tt eq_refl ltac:(simpl; lia)).
  destruct (GetAccount unit (fail_with 503) 0 (OAuth2Session JNull)
              (mkWorld tt [])) as [o w'].
  simpl in Hw, Hstatus. subst. now destruct s'.
Defined.

Lemma GetAccount_decodes_both_stamps_witness :
  fst (GetAccount unit account_answer 0 (OAuth2Session JNull) (mkWorld tt []))
  = Ret (Made (mkAccount (Some (mkdatetime (mkdate 2020 2 29) 0 0 0)) None)).
Proof.
  destruct (GetAccount_decodes_both_stamps account_answer 0 JNull
              (mkWorld tt [])
              (mkResponse 200
                 (Some (JDict [("lastedit_task", JNum 1582934400);
                               ("lastdelete_task", JNum 0)])))
              tt
              [("lastedit_task", JNum 1582934400); ("lastdelete_task", JNum 0)]
              eq_refl eq_refl eq_refl) as [Hboth _].
  apply (Hboth (JNum 1582934400) (JNum 0)); try reflexivity; discriminate.
Defined.

Lemma fail_with_answers_status status : answers_status (fail_with status) status.
Proof. intros token r s. now exists (mkResponse status None), s. Qed.

Lemma error_status_aborts_batch_operations_witness :
  exists s',
    AddTasks unit (fail_with 503) 0 (OAuth2Session JNull) [sample_task 1]
      (mkWorld tt [])
    = (Exc (HTTPError 503),
       mkWorld s' ([] ++ [post addTasksUrl [sample_wire 1]])).
Proof.
  assert (Hstatus : 400 <= 503 < 600) by lia.
  assert (Hne : [sample_task 1] <> []) by discriminate.
  destruct (error_status_aborts_batch_operations (fail_with 503) 0 503 JNull
              [sample_task 1] [sample_wire 1] [JNum 1] ∅ 0 (mkWorld tt [])
              (fail_with_answers_status 503) Hstatus Hne eq_refl eq_refl)
    as [Hadd _].
  exact Hadd.
Defined.

Lemma write_requests_are_leading_batches_witness :
  exists n s',
    snd (EditTasks unit (fail_with 503) 0 (OAuth2Session JNull)
           (replicate 120 (sample_task 7)) (mkWorld tt []))
    = mkWorld s' ([] ++ map (post editTasksUrl)
                          (take n (batches 50 (replicate 120 (sample_wire 7))))).
Proof.
  destruct (write_requests_are_leading_batches (fail_with 503) 0 JNull
              (replicate 120 (sample_task 7)) (mkWorld tt [])) as [H _].
  destruct (H (replicate 120 (sample_wire 7))) as [_ Hedit].
  - vm_compute. reflexivity.
  - exact Hedit.
Defined.

Lemma GetTasks_reads_up_to_the_short_page_witness :
  fst (GetTasks (list Response) playback 0 2 (OAuth2Session JNull)
         (∅, mkWorld (pages [(sample_marker, replicate 1000 (sample_wire 1))]
                      ++ [page_response sample_marker []])%list []))
  = Ret (replicate 1000 (sample_loaded 1)).
Proof.
  rewrite (GetTasks_reads_up_to_the_short_page 0 JNull ∅ []
             [(sample_marker, replicate 1000 (sample_wire 1))]
             sample_marker [] [] (replicate 1000 (sample_loaded 1)) 2).
  - reflexivity.
  - constructor; [|constructor].
    split; [cbn [fst snd]; rewrite length_replicate; lia|vm_compute; reflexivity].
  - simpl. lia.
  - reflexivity.
  - vm_compute. reflexivity.
  - simpl. lia.
Defined.

Lemma full_page_answers_full_pages limit n :
  answers_full_pages (full_page limit (sample_wire n)) limit.
Proof.
  intros token r s. exists s, sample_marker, (replicate limit (sample_wire n)).
  split; [reflexivity|]. split; [now rewrite length_replicate|].
  simpl. induction limit; [reflexivity|]. exact IHlimit.
Qed.

Lemma GetTasks_goes_on_while_pages_are_full_witness :
  exists s',
    GetTasks unit (full_page 1000 (sample_wire 1)) 0 2 (OAuth2Session JNull)
      (∅, mkWorld tt [])
    = (Diverge,
       (params_after ∅ 1000 0 2, mkWorld s' ([] ++ rounds ∅ 1000 0 2)%list)).
Proof.
  apply (GetTasks_goes_on_while_pages_are_full
           (full_page 1000 (sample_wire 1)) 0
           (full_page_answers_full_pages 1000 1) 2 JNull ∅ (mkWorld tt [])).
Defined.

Lemma DeleteTasks_needs_every_id_witness :
  DeleteTasks unit accept (OAuth2Session JNull)
    [sample_task 1; task_without_id] (mkWorld tt [])
  = (Exc (AttributeError "id_"), mkWorld tt []).
Proof.
  apply (DeleteTasks_needs_every_id accept JNull
           [sample_task 1; task_without_id] (mkWorld tt [])).
  apply Exists_cons_tl, Exists_cons_hd. reflexivity.
Defined.

Lemma GetTasks_error_discards_pages_read_witness :
  fst (GetTasks (list Response) playback 0 2 (OAuth2Session JNull)
         (∅, mkWorld (pages [(sample_marker, replicate 1000 (sample_wire 1))]
                      ++ [error_response 3 "Too many API requests"])%list []))
  = Exc (ToodledoError "Too many API requests" (JNum 3)).
Proof.
  rewrite (GetTasks_error_discards_pages_read 0 JNull ∅ []
             [(sample_marker, replicate 1000 (sample_wire 1))]
             3 "Too many API requests" [] 2).
  - reflexivity.
  - constructor; [|constructor].
    split; [cbn [fst snd]; rewrite length_replicate; lia|vm_compute; reflexivity].
  - simpl. lia.
Defined.
